(** * CCGAN (context-conditional GAN, [ccgan/ccgan.py]): a shallow embedding

    The script is Python 3 ([num_classes / half_batch] is a true division,
    [int(batch_size / 2)] truncates a float).  Conventions of the embedding:

    - a Python [int] is a [Z]; a Python or NumPy [float] is a real number
      ([R]): rounding is not modelled, except where a lemma says so;
    - an [ndarray] of images is a nested list; the arrays that
      [mask_randomly] creates and mutates live in a store, so that views,
      copies and in-place assignments keep their identity;
    - NumPy's global random generator is a stream of raw draws carried by
      the state; [randint] maps a draw into the requested range;
    - a raised exception ends the computation and keeps the state reached;
    - Keras is modelled at the level the script uses it: layers as data, a
      forward pass for the generator's layers, and the bookkeeping of
      [compile] and [train_on_batch] (which weights an update may write).
      The optimiser's arithmetic is a parameter ([Backend]). *)

From Stdlib Require Import ZArith Reals Lra Lia List String.
From stdpp Require Import gmap strings list fin_maps pretty.

Local Open Scope Z_scope.

(** ** Tensors *)

(** One image: rows x columns x channels. *)
Abbreviation Image := (list (list (list R))).
(** A batch of images: the leading axis is the sample. *)
Abbreviation Batch := (list Image).

(** The arrays kept in the store. *)
Inductive ndarray :=
| Arr4 (imgs : Batch)
| Arr3 (img : Image).

Abbreviation loc := nat.

(** [img.shape] of a rank-3 array (a rectangular nested list). *)
Definition shape3 (img : Image) : nat * nat * nat :=
  (length img, length (hd [] img), length (hd [] (hd [] img))).

(** The value of a pixel channel, when the indices are in range. *)
Definition px (img : Image) (y x ch : nat) : option R :=
  img !! y ≫= fun row => row !! x ≫= fun p => p !! ch.

(** Every image of the batch is [h] x [w] x [c]. *)
Definition image_shape (h w c : nat) (img : Image) : Prop :=
  length img = h ∧
  Forall (fun row => length row = w ∧ Forall (fun p => length p = c) row) img.

Definition batch_shape (n h w c : nat) (imgs : Batch) : Prop :=
  length imgs = n ∧ Forall (image_shape h w c) imgs.

(** ** Keras: layers, weights, compiled models *)

Inductive Layer :=
| Conv2D (filters kernel_size strides : nat) (padding : string)
| Activation (fn : string)
| UpSampling2D.

(** Kernel [kh][kw][c_in][c_out] and bias [c_out] of one convolution. *)
Abbreviation ConvParams := (list (list (list (list R))) * list R)%type.
Abbreviation Weights := (list ConvParams).

(** The two networks that own weights, and the three [Model] objects. *)
Inductive NetId := G | D.
Inductive ModelId := discriminator | generator | combined.

#[global] Instance NetId_eq_dec : EqDecision NetId.
Proof. solve_decision. Defined.
#[global] Instance ModelId_eq_dec : EqDecision ModelId.
Proof. solve_decision. Defined.

Record CompileArgs := {
  loss : list string;
  loss_weights : option (list R);
  metrics : list string
}.

(** What [compile] leaves in a model: its arguments and the weights that
    were trainable at that moment ([_collected_trainable_weights]). *)
Record Compiled := {
  args : CompileArgs;
  collected : list NetId
}.

Record KerasState := {
  g_weights : Weights;
  d_weights : Weights;
  g_trainable : bool;
  d_trainable : bool;
  compiled_d : option Compiled;
  compiled_g : option Compiled;
  compiled_c : option Compiled
}.

(** Targets of a training step: the two heads of the discriminator, or
    the two outputs of the combined model. *)
Inductive Targets :=
| TargetsD (valid : list (list R)) (labels : list (list R))
| TargetsC (imgs : Batch) (valid : list (list R)).

Abbreviation ClassWeight := (option (list (gmap Z R))).

(** ** Effects *)

Inductive exn := ValueError | ZeroDivisionError | IndexError | KeyError | RuntimeError.

Inductive FileContent :=
| Figure (axs : list (list (option Image)))
| Architecture (m : ModelId)
| WeightFile (ws : Weights).

Inductive Event :=
| EvBuild (m : ModelId)
| EvCompile (m : ModelId) (a : CompileArgs)
| EvSetTrainable (m : ModelId) (b : bool)
| EvPredict (m : ModelId) (x : Batch)
| EvTrainOnBatch (m : ModelId) (x : Batch) (y : Targets) (cw : ClassWeight)
| EvPrint (epoch : Z) (d_loss d_acc d_op_acc g_loss g_mse : R)
| EvWriteFile (path : string) (content : FileContent).

Record World := {
  rng : nat → Z;              (* raw draws still to come *)
  heap : gmap loc ndarray;    (* arrays with identity *)
  garbage : R;                (* what uninitialised memory holds *)
  keras : KerasState;
  log : list Event            (* library calls and file writes, oldest first *)
}.

Inductive result (A : Type) :=
| Ok (a : A) (w : World)
| Raise (e : exn) (w : World).
Arguments Ok {A} a w.
Arguments Raise {A} e w.

Definition M (A : Type) : Type := World → result A.

Definition ret {A} (a : A) : M A := fun w => Ok a w.
Definition raise {A} (e : exn) : M A := fun w => Raise e w.
Definition bind {A B} (m : M A) (k : A → M B) : M B := fun w =>
  match m w with
  | Ok a w' => k a w'
  | Raise e w' => Raise e w'
  end.

Declare Scope py_scope.
Delimit Scope py_scope with py.
Notation "x <- m ;; k" := (bind m (fun x => k))
  (at level 100, m at next level, right associativity) : py_scope.
Notation "m ;;; k" := (bind m (fun _ => k))
  (at level 100, k at level 200, right associativity) : py_scope.
Local Open Scope py_scope.

(** [for x in xs: body x] *)
Fixpoint for_each {A} (xs : list A) (body : A → M unit) : M unit :=
  match xs with
  | [] => ret tt
  | x :: xs' => body x ;;; for_each xs' body
  end.

(** [xs[i]] on a Python list or a rank-1 array, [i] in range. *)
Definition index {A} (xs : list A) (i : nat) : M A :=
  match xs !! i with
  | Some x => ret x
  | None => raise IndexError
  end.

Definition emit (e : Event) : M unit := fun w =>
  Ok tt {| rng := rng w; heap := heap w; garbage := garbage w;
           keras := keras w; log := log w ++ [e] |}.

(** ** NumPy *)

Module np.

(** [np.random.randint(low, high, size)] with scalar bounds.
    An empty request returns before the bounds are looked at; otherwise
    [low >= high] is a [ValueError].  The [i]-th value is the [i]-th raw
    draw reduced into [[low, high)].  (The bounds are assumed to fit the
    default integer type.) *)
Definition randint (low high size : Z) : M (list Z) := fun w =>
  if size <? 0 then Raise ValueError w
  else if size =? 0 then Ok [] w
  else if high <=? low then Raise ValueError w
  else
    let k := Z.to_nat size in
    Ok (map (fun i => low + rng w i mod (high - low)) (seq 0 k))
       {| rng := fun i => rng w (k + i)%nat; heap := heap w;
          garbage := garbage w; keras := keras w; log := log w |}.

(** A slice bound against an axis of length [len], as [a[start:stop]]
    resolves it: a negative bound counts from the end, and both are
    clipped to the axis. *)
Definition adjust (len : nat) (i : Z) : Z :=
  if i <? 0 then Z.max 0 (i + Z.of_nat len) else Z.min i (Z.of_nat len).

Definition in_slice (len : nat) (start stop : Z) (k : nat) : bool :=
  (adjust len start <=? Z.of_nat k) && (Z.of_nat k <? adjust len stop).

(** [img[y1:y2, x1:x2, :] = v] as a function of the old contents. *)
Definition assign_rect (img : Image) (y1 y2 x1 x2 : Z) (v : R) : Image :=
  let h := length img in
  let w := length (hd [] img) in
  imap (fun i row =>
          if in_slice h y1 y2 i
          then imap (fun j p => if in_slice w x1 x2 j then map (fun _ => v) p else p) row
          else row) img.

Definition store (l : loc) (a : ndarray) : M unit := fun w =>
  Ok tt {| rng := rng w; heap := <[l := a]> (heap w); garbage := garbage w;
           keras := keras w; log := log w |}.

(** A new array object. *)
Definition alloc (a : ndarray) : M loc := fun w =>
  let l := fresh (dom (heap w)) in
  (store l a ;;; ret l) w.

Definition load (l : loc) : M ndarray := fun w =>
  match heap w !! l with
  | Some a => Ok a w
  | None => Raise RuntimeError w
  end.

Definition load4 (l : loc) : M Batch :=
  a <- load l ;;
  match a with Arr4 b => ret b | Arr3 _ => raise IndexError end.

Definition load3 (l : loc) : M Image :=
  a <- load l ;;
  match a with Arr3 i => ret i | Arr4 _ => raise IndexError end.

(** [a.shape[0]] *)
Definition shape0 (l : loc) : M nat :=
  b <- load4 l ;; ret (length b).

(** [np.empty_like(a)]: a new array of the shape of [a], not initialised. *)
Definition empty_like (l : loc) : M loc := fun w =>
  (b <- load4 l ;;
   alloc (Arr4 (map (map (map (map (fun _ => garbage w)))) b))) w.

(** [a[i]] for a batch: a view, read here. *)
Definition getitem (l : loc) (i : nat) : M Image :=
  b <- load4 l ;; index b i.

(** [img.copy()]: a new array with the same contents. *)
Definition copy (img : Image) : M loc := alloc (Arr3 img).

(** [img[y1:y2, x1:x2, :] = v], in place. *)
Definition setitem_rect (l : loc) (y1 y2 x1 x2 : Z) (v : R) : M unit :=
  img <- load3 l ;; store l (Arr3 (assign_rect img y1 y2 x1 x2 v)).

(** [a[i] = img], in place: the data of [img] is copied into row [i];
    the shapes have to agree. *)
Definition setitem (l : loc) (i : nat) (src : loc) : M unit :=
  b <- load4 l ;;
  img <- load3 src ;;
  old <- index b i ;;
  if decide (shape3 old = shape3 img)
  then store l (Arr4 (<[i := img]> b))
  else raise ValueError.

End np.

(** ** The CCGAN class *)

Record CCGAN := {
  img_rows : Z;
  img_cols : Z;
  mask_height : Z;
  mask_width : Z;
  channels : Z;
  num_classes : Z
}.

(** Lines 21-26 of [__init__]. *)
Definition attributes : CCGAN :=
  {| img_rows := 32; img_cols := 32;
     mask_height := 10; mask_width := 10;
     channels := 3; num_classes := 2 |}.

Definition img_shape (self : CCGAN) : Z * Z * Z :=
  (img_rows self, img_cols self, channels self).

(** Lines 133-136 of [mask_randomly]: one top-left corner per image, and
    the opposite corner. *)
Definition draw_offsets (self : CCGAN) (n : nat)
  : M (list Z * list Z * list Z * list Z) :=
  y1 <- np.randint 0 (img_rows self - mask_height self) (Z.of_nat n) ;;
  let y2 := map (fun v => v + mask_height self) y1 in
  x1 <- np.randint 0 (img_rows self - mask_width self) (Z.of_nat n) ;;
  let x2 := map (fun v => v + mask_width self) x1 in
  ret (y1, y2, x1, x2).

Definition mask_randomly (self : CCGAN) (imgs : loc) : M loc :=
  n <- np.shape0 imgs ;;
  offsets <- draw_offsets self n ;;
  let '(y1, y2, x1, x2) := offsets in
  masked_imgs <- np.empty_like imgs ;;
  for_each (seq 0 n) (fun i =>
    img <- np.getitem imgs i ;;
    masked_img <- np.copy img ;;
    _y1 <- index y1 i ;;
    _y2 <- index y2 i ;;
    _x1 <- index x1 i ;;
    _x2 <- index x2 i ;;
    np.setitem_rect masked_img _y1 _y2 _x1 _x2 0%R ;;;
    np.setitem masked_imgs i masked_img) ;;;
  ret masked_imgs.

(** ** Keras: what the layers compute *)

Module keras.

(** The element-wise function an activation name stands for. *)
Definition get_activation (fn : string) : option (R → R) :=
  if decide (fn = "relu") then Some (Rmax 0)
  else if decide (fn = "tanh") then Some tanh
  else None.

(** Output length of a convolution along one axis of length [n]. *)
Definition conv_out_len (padding : string) (n k s : nat) : option nat :=
  if (s =? 0)%nat then None
  else if decide (padding = "same") then Some ((n + s - 1) / s)%nat
  else if decide (padding = "valid")
       then (if (k <=? n)%nat then Some ((n - k) / s + 1)%nat else None)
  else None.

(** Zeros put before the first element under ["same"] padding. *)
Definition pad_before (padding : string) (n k s out : nat) : nat :=
  if decide (padding = "same") then (((out - 1) * s + k - n) / 2)%nat else 0%nat.

Definition at3 (x : Image) (i j : Z) (c : nat) : R :=
  if (0 <=? i) && (0 <=? j)
  then nth c (nth (Z.to_nat j) (nth (Z.to_nat i) x []) []) 0%R
  else 0%R.

Definition kernel_at (wt : ConvParams) (di dj c f : nat) : R :=
  nth f (nth c (nth dj (nth di (fst wt) []) []) []) 0%R.

Definition sumR (l : list R) : R := foldr Rplus 0%R l.

Definition conv2d (filters k s : nat) (padding : string) (wt : ConvParams)
    (x : Image) : option Image :=
  let '(h, w, cin) := shape3 x in
  oh ← conv_out_len padding h k s;
  ow ← conv_out_len padding w k s;
  let pt := Z.of_nat (pad_before padding h k s oh) in
  let pl := Z.of_nat (pad_before padding w k s ow) in
  Some (map (fun i => map (fun j => map (fun f =>
    (nth f (snd wt) 0 +
     sumR (map (fun di => sumR (map (fun dj => sumR (map (fun c =>
       at3 x (Z.of_nat (i * s + di) - pt) (Z.of_nat (j * s + dj) - pl) c
       * kernel_at wt di dj c f)
       (seq 0 cin))) (seq 0 k))) (seq 0 k)))%R)
    (seq 0 filters)) (seq 0 ow)) (seq 0 oh)).

(** [UpSampling2D()]: every row and every column twice. *)
Definition upsample (x : Image) : Image :=
  flat_map (fun row => let r := flat_map (fun p => [p; p]) row in [r; r]) x.

(** A [Sequential] applied to one sample; the convolutions take their
    parameters from [ws] in order. *)
Fixpoint call (layers : list Layer) (ws : Weights) (x : Image) : option Image :=
  match layers with
  | [] => Some x
  | Conv2D f k s p :: ls =>
      y ← conv2d f k s p (hd ([], []) ws) x;
      call ls (tl ws) y
  | Activation fn :: ls =>
      a ← get_activation fn;
      call ls ws (map (map (map a)) x)
  | UpSampling2D :: ls => call ls ws (upsample x)
  end.

(** [Sequential.__call__] over a batch. *)
Fixpoint call_batch (layers : list Layer) (ws : Weights) (xs : Batch) : option Batch :=
  match xs with
  | [] => Some []
  | x :: xs' =>
      y ← call layers ws x;
      ys ← call_batch layers ws xs';
      Some (y :: ys)
  end.

End keras.

(** The numerical side of Keras that the script only calls: the
    initialiser, one optimiser step of a compiled model on one of the
    networks, and the numbers a training step reports. *)
Class Backend := {
  initializer : NetId → Weights;
  adam : ModelId → CompileArgs → NetId → Weights → Weights →
         Batch → Targets → ClassWeight → Weights;
  report : ModelId → nat → Weights → Weights → Batch → Targets → ClassWeight → R
}.

Definition set_keras (k : KerasState) : M unit := fun w =>
  Ok tt {| rng := rng w; heap := heap w; garbage := garbage w;
           keras := k; log := log w |}.

Definition get_keras : M KerasState := fun w => Ok (keras w) w.

Module Model.

(** [model.trainable_weights]: a model whose [trainable] flag is off
    reports none; the combined model reports those of its two parts. *)
Definition trainable_weights (m : ModelId) (k : KerasState) : list NetId :=
  match m with
  | generator => if g_trainable k then [G] else []
  | discriminator => if d_trainable k then [D] else []
  | combined =>
      (if g_trainable k then [G] else []) ++ (if d_trainable k then [D] else [])
  end.

Definition get_compiled (m : ModelId) (k : KerasState) : option Compiled :=
  match m with
  | discriminator => compiled_d k
  | generator => compiled_g k
  | combined => compiled_c k
  end.

Definition set_compiled (m : ModelId) (c : Compiled) (k : KerasState) : KerasState :=
  {| g_weights := g_weights k; d_weights := d_weights k;
     g_trainable := g_trainable k; d_trainable := d_trainable k;
     compiled_d := if decide (m = discriminator) then Some c else compiled_d k;
     compiled_g := if decide (m = generator) then Some c else compiled_g k;
     compiled_c := if decide (m = combined) then Some c else compiled_c k |}.

(** [model.compile(...)]: the trainable weights are collected now. *)
Definition compile (m : ModelId) (a : CompileArgs) : M unit :=
  k <- get_keras ;;
  set_keras (set_compiled m {| args := a; collected := trainable_weights m k |} k) ;;;
  emit (EvCompile m a).

(** [model.trainable = b] *)
Definition set_trainable (m : ModelId) (b : bool) : M unit :=
  k <- get_keras ;;
  set_keras
    {| g_weights := g_weights k; d_weights := d_weights k;
       g_trainable := if decide (m = generator) then b else g_trainable k;
       d_trainable := if decide (m = discriminator) then b else d_trainable k;
       compiled_d := compiled_d k; compiled_g := compiled_g k;
       compiled_c := compiled_c k |} ;;;
  emit (EvSetTrainable m b).

(** The outputs a model was created with, in order. *)
Definition outputs (m : ModelId) : list string :=
  match m with
  | discriminator => ["valid"; "label"]
  | generator => ["img"]
  | combined => ["gen_img"; "valid"]
  end.

Definition n_outputs (m : ModelId) : nat := length (outputs m).

(** How many numbers [train_on_batch] returns: the total loss, then, for
    a model with several outputs, one loss per output, then the metrics
    of every output. *)
Definition n_reports (m : ModelId) (a : CompileArgs) : nat :=
  (1 + (if (n_outputs m =? 1)%nat then 0 else n_outputs m)
     + n_outputs m * length (metrics a))%nat.

(** [model.train_on_batch(x, y, class_weight)]: one optimiser step on the
    weights collected when the model was compiled, and on no other. *)
Definition train_on_batch `{Backend} (m : ModelId) (x : Batch) (y : Targets)
    (cw : ClassWeight) : M (list R) :=
  k <- get_keras ;;
  match get_compiled m k with
  | None => raise RuntimeError
  | Some c =>
      let step n old :=
        if decide (n ∈ collected c)
        then adam m (args c) n (g_weights k) (d_weights k) x y cw
        else old in
      set_keras
        {| g_weights := step G (g_weights k); d_weights := step D (d_weights k);
           g_trainable := g_trainable k; d_trainable := d_trainable k;
           compiled_d := compiled_d k; compiled_g := compiled_g k;
           compiled_c := compiled_c k |} ;;;
      emit (EvTrainOnBatch m x y cw) ;;;
      ret (map (fun i => report m i (g_weights k) (d_weights k) x y cw)
               (seq 0 (n_reports m (args c))))
  end.

(** [generator.predict(x)], the generator being the network [layers]. *)
Definition predict (layers : list Layer) (x : Batch) : M Batch :=
  k <- get_keras ;;
  emit (EvPredict generator x) ;;;
  match keras.call_batch layers (g_weights k) x with
  | Some y => ret y
  | None => raise ValueError
  end.

(** A network is created with freshly initialised weights. *)
Definition build `{Backend} (m : ModelId) : M unit :=
  k <- get_keras ;;
  set_keras
    {| g_weights := if decide (m = generator) then initializer G else g_weights k;
       d_weights := if decide (m = discriminator) then initializer D else d_weights k;
       g_trainable := if decide (m = generator) then true else g_trainable k;
       d_trainable := if decide (m = discriminator) then true else d_trainable k;
       compiled_d := compiled_d k; compiled_g := compiled_g k;
       compiled_c := compiled_c k |} ;;;
  emit (EvBuild m).

End Model.

(** ** More NumPy: what [train] uses *)

Module npx.

(** [np.vstack((a, b))] of two arrays of rank 2: the rows of [b] after
    those of [a]; the row lengths have to agree. *)
Definition vstack2 {A} (a b : list (list A)) : M (list (list A)) :=
  match a, b with
  | ra :: _, rb :: _ =>
      if decide (length ra = length rb) then ret (a ++ b) else raise ValueError
  | _, _ => ret (a ++ b)
  end.

(** [np.vstack((a, b))] of two arrays of rank 1: each becomes one row,
    so the lengths have to agree. *)
Definition vstack1 {A} (a b : list A) : M (list (list A)) :=
  if decide (length a = length b) then ret [a; b] else raise ValueError.

(** [a == v] for a rank-2 integer array. *)
Definition eq_scalar (a : list (list Z)) (v : Z) : list (list bool) :=
  map (map (fun e => e =? v)) a.

(** [m.flatten()] *)
Definition flatten {A} (m : list (list A)) : list A := concat m.

(** [a[mask]] with a boolean vector [mask] along the first axis. *)
Definition mask_rows {A} (a : list A) (mask : list bool) : M (list A) :=
  if decide (length a = length mask)
  then ret (omap (fun p : A * bool => if snd p then Some (fst p) else None) (zip a mask))
  else raise IndexError.

(** [a[a == v]]: the selected elements, as a vector. *)
Definition select_eq (a : list (list Z)) (v : Z) : list Z :=
  filter (fun e => e = v) (flatten a).

(** [a[a == v] = u], as a function of the old contents. *)
Definition assign_where (a : list (list Z)) (v u : Z) : list (list Z) :=
  map (map (fun e => if e =? v then u else e)) a.

(** [a.reshape(-1, 1)] *)
Definition reshape_col {A} (a : list (list A)) : list (list A) :=
  map (fun e => [e]) (flatten a).

Definition map4 {A B} (f : A → B) : list (list (list (list A))) → list (list (list (list B))) :=
  map (map (map (map f))).

(** [range(n)] *)
Definition range (n : Z) : list Z := map Z.of_nat (seq 0 (Z.to_nat n)).

(** [a[i]] with an integer [i] that may count from the end. *)
Definition item {A} (a : list A) (i : Z) : M A :=
  let j := if i <? 0 then i + Z.of_nat (length a) else i in
  if j <? 0 then raise IndexError else index a (Z.to_nat j).

Fixpoint mapM {A B} (f : A → M B) (xs : list A) : M (list B) :=
  match xs with
  | [] => ret []
  | x :: xs' => y <- f x ;; ys <- mapM f xs' ;; ret (y :: ys)
  end.

(** [a[idx]] with an integer vector [idx]: a new array. *)
Definition take {A} (a : list A) (idx : list Z) : M (list A) :=
  mapM (item a) idx.

(** [np.ones((n, 1))], [np.zeros((n, 1))], [np.full((n, 1), v)] *)
Definition full {A} (n : Z) (v : A) : M (list (list A)) :=
  if n <? 0 then raise ValueError else ret (replicate (Z.to_nat n) [v]).

(** [keras.utils.to_categorical(y, num_classes)] for a column of labels. *)
Definition to_categorical (y : list (list Z)) (num_classes : Z) : M (list (list R)) :=
  mapM (fun l =>
          let j := if l <? 0 then l + num_classes else l in
          if (0 <=? j) && (j <? num_classes)
          then ret (map (fun c => if c =? j then 1%R else 0%R) (range num_classes))
          else raise IndexError)
       (flatten y).

Fixpoint foldM {A S} (f : S → A → M S) (xs : list A) (s : S) : M S :=
  match xs with
  | [] => ret s
  | x :: xs' => s' <- f s x ;; foldM f xs' s'
  end.

(** [a / b] on Python integers. *)
Definition true_div (a b : Z) : M R :=
  if b =? 0 then raise ZeroDivisionError else ret (IZR a / IZR b)%R.

(** [a % b] on Python integers: the sign of the result is that of [b]. *)
Definition py_mod (a b : Z) : M Z :=
  if b =? 0 then raise ZeroDivisionError else ret (a mod b).

End npx.

(** ** Matplotlib: a grid of axes, each showing at most one image *)

Module plt.

(** [plt.subplots(r, c)] *)
Definition subplots (r c : nat) : list (list (option Image)) :=
  replicate r (replicate c None).

(** [axs[row, col].imshow(img)] *)
Definition imshow (axs : list (list (option Image))) (row col : nat) (img : Image)
  : M (list (list (option Image))) :=
  match axs !! row with
  | Some cells =>
      if decide (col < length cells)%nat
      then ret (<[row := <[col := Some img]> cells]> axs)
      else raise IndexError
  | None => raise IndexError
  end.

End plt.

(** ** The CCGAN class, continued *)

(** [cifar10.load_data()]: images of 8-bit intensities and one label per
    row, for the train and the test split. *)
Abbreviation RawImage := (list (list (list Z))).
Abbreviation Split := (list RawImage * list (list Z))%type.
Abbreviation Dataset := (Split * Split)%type.

Definition generator_layers (self : CCGAN) : list Layer :=
  [ (* Encoder *)
    Conv2D 64 4 2 "same"; Activation "relu";
    Conv2D 128 4 2 "same"; Activation "relu";
    Conv2D 256 4 2 "same"; Activation "relu";
    (* Decoder *)
    UpSampling2D; Conv2D 128 4 1 "same"; Activation "relu";
    UpSampling2D; Conv2D 64 4 1 "same"; Activation "relu";
    UpSampling2D; Conv2D (Z.to_nat (channels self)) 4 1 "same"; Activation "tanh" ].

Section Program.
Context `{Backend}.

Definition build_generator (self : CCGAN) : M (list Layer) :=
  Model.build generator ;;;
  ret (generator_layers self).

(** The discriminator's layers compute nothing any statement below
    looks at; building it creates its weights. *)
Definition build_discriminator (self : CCGAN) : M unit :=
  Model.build discriminator.

(** The body of [__init__] below the attribute assignments. *)
Definition construct (self : CCGAN) : M CCGAN :=
  (* Build and compile the discriminator *)
  build_discriminator self ;;;
  Model.compile discriminator
    {| loss := ["binary_crossentropy"; "categorical_crossentropy"];
       loss_weights := Some [0.5; 0.5]%R;
       metrics := ["accuracy"] |} ;;;
  (* Build and compile the generator *)
  build_generator self ;;;
  Model.compile generator
    {| loss := ["binary_crossentropy"]; loss_weights := None; metrics := [] |} ;;;
  (* For the combined model we will only train the generator *)
  Model.set_trainable discriminator false ;;;
  (* combined = Model(masked_img, [gen_img, valid]) *)
  emit (EvBuild combined) ;;;
  Model.compile combined
    {| loss := ["mse"; "binary_crossentropy"];
       loss_weights := Some [0.999; 0.001]%R;
       metrics := [] |} ;;;
  ret self.

Definition __init__ : M CCGAN :=
  construct attributes.

(** Lines 170-172 of [train]: [X_train / 255], then [2 * X_train - 1]. *)
Definition rescale (X_train : list RawImage) : Batch :=
  let X_train := npx.map4 (fun p => IZR p / 255)%R X_train in
  npx.map4 (fun v => 2 * v - 1)%R X_train.

(** Lines 153-173 of [train]: the dataset becomes the cats and the dogs,
    relabelled and rescaled. *)
Definition load_data (data : Dataset) : M (Batch * list (list Z)) :=
  let '((X_train, y_train), (X_test, y_test)) := data in
  let X_train := X_train ++ X_test in
  y_train <- npx.vstack2 y_train y_test ;;
  (* Extract dogs and cats *)
  X_cats <- npx.mask_rows X_train (npx.flatten (npx.eq_scalar y_train 3)) ;;
  let y_cats := npx.select_eq y_train 3 in
  X_dogs <- npx.mask_rows X_train (npx.flatten (npx.eq_scalar y_train 5)) ;;
  let y_dogs := npx.select_eq y_train 5 in
  let X_train := X_cats ++ X_dogs in
  y_train <- npx.vstack1 y_cats y_dogs ;;
  (* Change labels to 0 and 1 *)
  let y_train := npx.assign_where y_train 3 0 in
  let y_train := npx.assign_where y_train 5 1 in
  (* Rescale -1 to 1 *)
  let X_train := rescale X_train in
  let y_train := npx.reshape_col y_train in
  ret (X_train, y_train).

(** Lines 175-184 of [train]. *)
Definition class_weights (self : CCGAN) (batch_size : Z)
  : M (Z * list (gmap Z R)) :=
  let half_batch := Z.quot batch_size 2 in
  let cw1 : gmap Z R := {[ 0 := 1%R; 1 := 1%R ]} in
  entries <- npx.mapM (fun i => v <- npx.true_div (num_classes self) half_batch ;;
                                ret (i, v))
                      (npx.range (num_classes self)) ;;
  let cw2 : gmap Z R := list_to_map entries in
  v <- npx.true_div 1 half_batch ;;
  let cw2 := <[num_classes self := v]> cw2 in
  ret (half_batch, [cw1; cw2]).

Definition save_imgs (self : CCGAN) (epoch : Z) (imgs : loc) : M unit :=
  let r := 3%nat in
  let c := 6%nat in
  masked_imgs <- mask_randomly self imgs ;;
  masked_imgs <- np.load4 masked_imgs ;;
  gen_imgs <- Model.predict (generator_layers self) masked_imgs ;;
  imgs <- np.load4 imgs ;;
  let imgs := npx.map4 (fun v => 0.5 * v + 0.5)%R imgs in
  let masked_imgs := npx.map4 (fun v => 0.5 * v + 0.5)%R masked_imgs in
  let gen_imgs := npx.map4 (fun v => 0.5 * v + 0.5)%R gen_imgs in
  let axs := plt.subplots r c in
  axs <- npx.foldM (fun axs i =>
           a <- index imgs i ;;
           axs <- plt.imshow axs 0 i a ;;
           b <- index masked_imgs i ;;
           axs <- plt.imshow axs 1 i b ;;
           g <- index gen_imgs i ;;
           plt.imshow axs 2 i g) (seq 0 c) axs ;;
  emit (EvWriteFile ("ccgan/images/cifar_" +:+ pretty epoch +:+ ".png") (Figure axs)).

Definition save_model (self : CCGAN) : M unit :=
  let save (model : ModelId) (model_name : string) : M unit :=
    let model_path := "ccgan/saved_model/" +:+ model_name +:+ ".json" in
    let weights_path := "ccgan/saved_model/" +:+ model_name +:+ "_weights.hdf5" in
    let options : gmap string string :=
      {[ "file_arch" := model_path; "file_weight" := weights_path ]} in
    match options !! "file_arch", options !! "file_weight" with
    | Some arch, Some weight =>
        emit (EvWriteFile arch (Architecture model)) ;;;
        k <- get_keras ;;
        emit (EvWriteFile weight
                (WeightFile (match model with
                             | generator => g_weights k
                             | _ => d_weights k
                             end)))
    | _, _ => raise KeyError
    end in
  save generator "ccgan_generator" ;;;
  save discriminator "ccgan_discriminator".

(** One turn of the loop of [train]. *)
Definition train_epoch (self : CCGAN) (X_train : Batch) (y_train : list (list Z))
    (batch_size half_batch save_interval : Z) (class_weights : list (gmap Z R))
    (epoch : Z) : M unit :=
  (* Train Discriminator *)
  idx <- np.randint 0 (Z.of_nat (length X_train)) half_batch ;;
  imgs <- npx.take X_train idx ;;
  imgs <- np.alloc (Arr4 imgs) ;;
  labels <- npx.take y_train idx ;;
  masked_imgs <- mask_randomly self imgs ;;
  masked_imgs <- np.load4 masked_imgs ;;
  gen_imgs <- Model.predict (generator_layers self) masked_imgs ;;
  valid <- npx.full half_batch 1%R ;;
  fake <- npx.full half_batch 0%R ;;
  labels <- npx.to_categorical labels (num_classes self + 1) ;;
  fake_labels <- (f <- npx.full half_batch (num_classes self) ;;
                  npx.to_categorical f (num_classes self + 1)) ;;
  imgs <- np.load4 imgs ;;
  d_loss_real <- Model.train_on_batch discriminator imgs (TargetsD valid labels)
                   (Some class_weights) ;;
  d_loss_fake <- Model.train_on_batch discriminator gen_imgs (TargetsD fake fake_labels)
                   (Some class_weights) ;;
  let d_loss := map (fun p => 0.5 * (fst p + snd p))%R (zip d_loss_real d_loss_fake) in
  (* Train Generator *)
  idx <- np.randint 0 (Z.of_nat (length X_train)) batch_size ;;
  imgs <- npx.take X_train idx ;;
  imgs <- np.alloc (Arr4 imgs) ;;
  masked_imgs <- mask_randomly self imgs ;;
  masked_imgs <- np.load4 masked_imgs ;;
  valid <- npx.full batch_size 1%R ;;
  imgs <- np.load4 imgs ;;
  g_loss <- Model.train_on_batch combined masked_imgs (TargetsC imgs valid) None ;;
  (* Plot the progress *)
  d0 <- index d_loss 0 ;;
  d3 <- index d_loss 3 ;;
  d4 <- index d_loss 4 ;;
  g0 <- index g_loss 0 ;;
  g1 <- index g_loss 1 ;;
  emit (EvPrint epoch d0 (100 * d3) (100 * d4) g0 g1) ;;;
  (* If at save interval => save generated image samples *)
  rem <- npx.py_mod epoch save_interval ;;
  if rem =? 0 then
    idx <- np.randint 0 (Z.of_nat (length X_train)) 6 ;;
    imgs <- npx.take X_train idx ;;
    imgs <- np.alloc (Arr4 imgs) ;;
    save_imgs self epoch imgs ;;;
    save_model self
  else ret tt.

Definition train (self : CCGAN) (data : Dataset) (epochs batch_size save_interval : Z)
  : M unit :=
  d <- load_data data ;;
  let '(X_train, y_train) := d in
  cw <- class_weights self batch_size ;;
  let '(half_batch, class_weights) := cw in
  for_each (npx.range epochs)
    (train_epoch self X_train y_train batch_size half_batch save_interval class_weights).


End Program.

(** * Vocabulary of the statements *)

Local Open Scope py_scope.

Definition reduced (r : nat → Z) (low high : Z) (n : nat) : list Z :=
  map (fun i => low + r i mod (high - low)) (seq 0 n).

Definition advance (k : nat) (w : World) : World :=
  {| rng := fun i => rng w (k + i)%nat; heap := heap w; garbage := garbage w;
     keras := keras w; log := log w |}.

Definition junk (g : R) (img : Image) : Image := map (map (map (fun _ => g))) img.

Definition mask_with (y1 y2 x1 x2 : list Z) (imgs : Batch) : Batch :=
  imap (fun i img =>
          np.assign_rect img (nth i y1 0) (nth i y2 0) (nth i x1 0) (nth i x2 0) 0%R)
       imgs.

Definition partial (g : R) (y1 y2 x1 x2 : list Z) (k : nat) (imgs : Batch) : Batch :=
  imap (fun i img =>
          if (i <? k)%nat
          then np.assign_rect img (nth i y1 0) (nth i y2 0) (nth i x1 0) (nth i x2 0) 0%R
          else junk g img)
       imgs.

Definition same_env (w w' : World) : Prop :=
  rng w' = rng w ∧ garbage w' = garbage w ∧ keras w' = keras w ∧ log w' = log w.

Definition mask_body (imgs masked_imgs : loc) (y1 y2 x1 x2 : list Z) (i : nat) : M unit :=
    img <- np.getitem imgs i ;;
    masked_img <- np.copy img ;;
    _y1 <- index y1 i ;;
    _y2 <- index y2 i ;;
    _x1 <- index x1 i ;;
    _x2 <- index x2 i ;;
    np.setitem_rect masked_img _y1 _y2 _x1 _x2 0%R ;;;
    np.setitem masked_imgs i masked_img.

Definition corners (self : CCGAN) (r : nat → Z) (n : nat)
  : list Z * list Z * list Z * list Z :=
  let y1 := reduced r 0 (img_rows self - mask_height self) n in
  let x1 := reduced (fun i => r (n + i)%nat) 0 (img_rows self - mask_width self) n in
  (y1, map (fun v => v + mask_height self) y1, x1, map (fun v => v + mask_width self) x1).

Definition masked (self : CCGAN) (r : nat → Z) (imgs : Batch) : Batch :=
  let '(y1, y2, x1, x2) := corners self r (length imgs) in
  mask_with y1 y2 x1 x2 imgs.

Definition in_rect (y1 y2 x1 x2 : Z) (y x : nat) : bool :=
  (y1 <=? Z.of_nat y) && (Z.of_nat y <? y2) && (x1 <=? Z.of_nat x) && (Z.of_nat x <? x2).

(** A Keras session in which nothing has been built yet. *)
Definition keras0 : KerasState :=
  {| g_weights := []; d_weights := []; g_trainable := true; d_trainable := true;
     compiled_d := None; compiled_g := None; compiled_c := None |}.

(** The state of a fresh process: raw draws [r], nothing stored, nothing
    logged. *)
Definition world0 (r : nat → Z) : World :=
  {| rng := r; heap := ∅; garbage := 0%R; keras := keras0; log := [] |}.

(** The same with one batch stored at address 0. *)
Definition world_with (r : nat → Z) (imgs : Batch) : World :=
  {| rng := r; heap := {[ 0%nat := Arr4 imgs ]}; garbage := 0%R;
     keras := keras0; log := [] |}.

(** A batch of [n] constant images of [h] x [w] x [c]. *)
Definition constant_batch (n h w c : nat) (v : R) : Batch :=
  replicate n (replicate h (replicate w (replicate c v))).

(** A corner vector lies in the range [randint 0 high] draws from. *)
Definition in_range (high : Z) (vs : list Z) : Prop :=
  Forall (fun v => 0 <= v <= high - 1) vs.

(** The arguments of the three [compile] calls of [__init__]. *)
Definition d_args : CompileArgs :=
  {| loss := ["binary_crossentropy"; "categorical_crossentropy"];
     loss_weights := Some [0.5; 0.5]%R;
     metrics := ["accuracy"] |}.

Definition g_args : CompileArgs :=
  {| loss := ["binary_crossentropy"]; loss_weights := None; metrics := [] |}.

Definition c_args : CompileArgs :=
  {| loss := ["mse"; "binary_crossentropy"];
     loss_weights := Some [0.999; 0.001]%R;
     metrics := [] |}.

(** The library calls of [__init__], in order. *)
Definition init_events : list Event :=
  [EvBuild discriminator; EvCompile discriminator d_args;
   EvBuild generator; EvCompile generator g_args;
   EvSetTrainable discriminator false;
   EvBuild combined; EvCompile combined c_args].

(** The Keras session [__init__] leaves, up to the weights. *)
Definition ready (k : KerasState) : Prop :=
  g_trainable k = true ∧ d_trainable k = false ∧
  compiled_d k = Some {| args := d_args; collected := [D] |} ∧
  compiled_g k = Some {| args := g_args; collected := [G] |} ∧
  compiled_c k = Some {| args := c_args; collected := [G] |}.

(** The value of a raw pixel channel, when the indices are in range. *)
Definition raw_px (img : RawImage) (y x ch : nat) : option Z :=
  img !! y ≫= fun row => row !! x ≫= fun p => p !! ch.

(** The labelled samples of the two splits, train first. *)
Definition samples (data : Dataset) : list (RawImage * Z) :=
  zip (data.1.1 ++ data.2.1) (concat (data.1.2 ++ data.2.2)).

(** The images of the samples labelled [v], in order. *)
Definition with_label (v : Z) (ss : list (RawImage * Z)) : list RawImage :=
  (filter (fun s => s.2 = v) ss).*1.

(** What [cifar10.load_data] promises about shapes: one label row of
    length 1 per image, in both splits. *)
Definition well_formed (data : Dataset) : Prop :=
  length data.1.1 = length data.1.2 ∧
  length data.2.1 = length data.2.2 ∧
  Forall (fun row => length row = 1%nat) (data.1.2 ++ data.2.2).

(** The dataset holds as many cats (label 3) as dogs (label 5). *)
Definition balanced (data : Dataset) : Prop :=
  length (with_label 3 (samples data)) = length (with_label 5 (samples data)).

(** One cat and no dog. *)
Definition one_cat : Dataset := (([ [[[12; 34; 56]]] ], [[3]]), ([], [])).

(** The shape a layer gives to an input of shape [(h, w, c)]
    (convolutions with ["same"] padding only). *)
Definition out_shape (l : Layer) (s : nat * nat * nat) : option (nat * nat * nat) :=
  let '(h, w, c) := s in
  match l with
  | Conv2D f k st p =>
      if decide (p = "same") then
        oh ← keras.conv_out_len p h k st;
        ow ← keras.conv_out_len p w k st;
        Some (oh, ow, f)
      else None
  | Activation fn => _ ← keras.get_activation fn; Some s
  | UpSampling2D => Some (2 * h, 2 * w, c)%nat
  end.

Fixpoint out_shapes (ls : list Layer) (s : nat * nat * nat) : option (nat * nat * nat) :=
  match ls with
  | [] => Some s
  | l :: ls' => s' ← out_shape l s; out_shapes ls' s'
  end.

(** Every value of an image satisfies [P]. *)
Definition all_px (P : R → Prop) (img : Image) : Prop :=
  Forall (Forall (Forall P)) img.

(** The state after the events [es] have been logged. *)
Definition logged (es : list Event) (w : World) : World :=
  {| rng := rng w; heap := heap w; garbage := garbage w;
     keras := keras w; log := log w ++ es |}.


(** The weights of network [n] after one step of model [m], compiled as
    [c], from the session [k]. *)
Definition stepped `{Backend} (m : ModelId) (c : Compiled) (x : Batch) (y : Targets)
    (cw : ClassWeight) (k : KerasState) (n : NetId) (old : Weights) : Weights :=
  if decide (n ∈ collected c)
  then adam m (args c) n (g_weights k) (d_weights k) x y cw
  else old.

(** The session after [train_on_batch] of model [m], compiled as [c]. *)
Definition trained_keras `{Backend} (m : ModelId) (c : Compiled) (x : Batch) (y : Targets)
    (cw : ClassWeight) (k : KerasState) : KerasState :=
  {| g_weights := stepped m c x y cw k G (g_weights k);
     d_weights := stepped m c x y cw k D (d_weights k);
     g_trainable := g_trainable k; d_trainable := d_trainable k;
     compiled_d := compiled_d k; compiled_g := compiled_g k;
     compiled_c := compiled_c k |}.

Definition trained `{Backend} (m : ModelId) (c : Compiled) (x : Batch) (y : Targets)
    (cw : ClassWeight) (w : World) : World :=
  {| rng := rng w; heap := heap w; garbage := garbage w;
     keras := trained_keras m c x y cw (keras w);
     log := log w ++ [EvTrainOnBatch m x y cw] |}.

(** The numbers [train_on_batch] returns. *)
Definition reports `{Backend} (m : ModelId) (c : Compiled) (x : Batch) (y : Targets)
    (cw : ClassWeight) (k : KerasState) : list R :=
  map (fun i => report m i (g_weights k) (d_weights k) x y cw)
      (seq 0 (Model.n_reports m (args c))).

(** [a[idx]] when every index is in range. *)
Definition pick {A} (d : A) (xs : list A) (idx : list Z) : list A :=
  map (fun i => nth (Z.to_nat i) xs d) idx.

(** One-hot rows for labels in range. *)
Definition one_hot (num_classes : Z) (labels : list Z) : list (list R) :=
  map (fun l => map (fun c => if c =? l then 1%R else 0%R) (npx.range num_classes)) labels.

(** A layer list [call] cannot fail on. *)
Definition runnable (l : Layer) : bool :=
  match l with
  | Conv2D _ _ s p => negb (s =? 0)%nat && bool_decide (p = "same")
  | Activation fn => bool_decide (is_Some (keras.get_activation fn))
  | UpSampling2D => true
  end.

(** The display scaling of [save_imgs]: [0.5 * a + 0.5]. *)
Definition display (imgs : Batch) : Batch := npx.map4 (fun v => 0.5 * v + 0.5)%R imgs.

(** A row of [c] axes of which the first [k] show the images of [l]. *)
Definition axes_row (c k : nat) (l : Batch) : list (option Image) :=
  (Some <$> take k l) ++ replicate (c - k) None.

(** The figure [save_imgs] saves: real, masked and generated images. *)
Definition sample_grid (imgs masked_imgs gen_imgs : Batch) : list (list (option Image)) :=
  [Some <$> take 6 (display imgs);
   Some <$> take 6 (display masked_imgs);
   Some <$> take 6 (display gen_imgs)].


(** The path of the sample grid of an epoch. *)
Definition grid_path (epoch : Z) : string :=
  "ccgan/images/cifar_" +:+ pretty epoch +:+ ".png".

(** The body of the loop of [save_imgs]: column [i] of the three rows. *)
Definition show_body (imgs masked_imgs gen_imgs : Batch)
    (axs : list (list (option Image))) (i : nat) : M (list (list (option Image))) :=
  a <- index imgs i ;;
  axs <- plt.imshow axs 0 i a ;;
  b <- index masked_imgs i ;;
  axs <- plt.imshow axs 1 i b ;;
  g <- index gen_imgs i ;;
  plt.imshow axs 2 i g.




(** [gen_imgs] is what the generator of session [k] makes of [x]. *)
Definition generated (self : CCGAN) (k : KerasState) (x gen_imgs : Batch) : Prop :=
  keras.call_batch (generator_layers self) (g_weights k) x = Some gen_imgs.



(** The training set [train] builds from the dataset. *)
Definition train_set (data : Dataset) : Batch :=
  rescale (with_label 3 (samples data) ++ with_label 5 (samples data)).

(** The files an event list writes, in order. *)
Definition files_written (es : list Event) : list (string * FileContent) :=
  omap (fun e => match e with EvWriteFile p c => Some (p, c) | _ => None end) es.


(** A session as [__init__] leaves it, with no weights. *)
Definition keras_ready : KerasState :=
  {| g_weights := []; d_weights := []; g_trainable := true; d_trainable := false;
     compiled_d := Some {| args := d_args; collected := [D] |};
     compiled_g := Some {| args := g_args; collected := [G] |};
     compiled_c := Some {| args := c_args; collected := [G] |} |}.

Definition world_ready (r : nat → Z) : World :=
  {| rng := r; heap := ∅; garbage := 0%R; keras := keras_ready; log := [] |}.

(** A backend that never moves a weight and reports zeros. *)
Definition idle_backend : Backend :=
  {| initializer := fun _ => [];
     adam := fun _ _ _ g _ _ _ _ => g;
     report := fun _ _ _ _ _ _ _ => 0%R |}.

(** One cat and one dog, of one pixel each. *)
Definition cat_and_dog : Dataset :=
  (([ [[[255; 0; 0]]] ], [[3]]), ([ [[[0; 0; 255]]] ], [[5]])).

(** The state a computation ends in, returned or raised. *)
Definition final {A} (r : result A) : World :=
  match r with Ok _ w => w | Raise _ w => w end.

(** An event that is no [compile], no assignment to [trainable] and no
    creation of a model. *)
Definition quiet (e : Event) : Prop :=
  match e with
  | EvSetTrainable _ _ | EvCompile _ _ | EvBuild _ => False
  | _ => True
  end.

(** From [w] to [w'] the flags and the compiled models stayed as they
    were, and only quiet events were logged. *)
Definition frozen (w w' : World) : Prop :=
  d_trainable (keras w') = d_trainable (keras w) ∧
  g_trainable (keras w') = g_trainable (keras w) ∧
  compiled_d (keras w') = compiled_d (keras w) ∧
  compiled_g (keras w') = compiled_g (keras w) ∧
  compiled_c (keras w') = compiled_c (keras w) ∧
  ∃ es, log w' = log w ++ es ∧ Forall quiet es.

(** Every run of [m], returning or raising, keeps the session frozen. *)
Definition keeps {A} (m : M A) : Prop := ∀ w, frozen w (final (m w)).

(** The constructor's attributes, but a mask as high as the image. *)
Definition tall_mask : CCGAN :=
  {| img_rows := 32; img_cols := 32; mask_height := 32; mask_width := 10;
     channels := 3; num_classes := 2 |}.





(** No dataset at all: both splits are empty. *)
Definition no_data : Dataset := (([], []), ([], [])).





(** ** The session through one turn of the loop *)

Section Sessions.
Context `{Backend}.
Variables (self : CCGAN) (cw : list (gmap Z R)) (batch_size half_batch : Z).










End Sessions.

(** The paths of the four checkpoint files, in the order of writing. *)
Definition checkpoint_paths : list string :=
  ["ccgan/saved_model/ccgan_generator.json";
   "ccgan/saved_model/ccgan_generator_weights.hdf5";
   "ccgan/saved_model/ccgan_discriminator.json";
   "ccgan/saved_model/ccgan_discriminator_weights.hdf5"].


(** ** The discriminator's network ([build_discriminator]) *)

Module dnet.

Abbreviation DenseParams := (list (list R) * list R)%type.

(** [MaxPooling2D()]: the maximum over each 2 x 2 window, the windows
    side by side; an odd last row or column is dropped. *)
Definition max_pool (x : Image) : Image :=
  let '(h, w, c) := shape3 x in
  let at_ i j ch := nth ch (nth j (nth i x []) []) 0%R in
  map (fun i => map (fun j => map (fun ch =>
    Rmax (Rmax (at_ (2 * i) (2 * j) ch) (at_ (2 * i) (2 * j + 1) ch))
         (Rmax (at_ (2 * i + 1) (2 * j) ch) (at_ (2 * i + 1) (2 * j + 1) ch)))%nat
    (seq 0 c)) (seq 0 (w / 2))) (seq 0 (h / 2)).

(** [Flatten()] *)
Definition flatten (x : Image) : list R := concat (concat x).

(** [Dense(units)] before its activation: [x . kernel + bias]. *)
Definition dense (units : nat) (wt : DenseParams) (x : list R) : list R :=
  map (fun j => (nth j (snd wt) 0 +
                 keras.sumR (imap (fun i v => v * nth j (nth i (fst wt) []) 0) x))%R)
      (seq 0 units).

Definition sigmoid (v : R) : R := (1 / (1 + exp (- v)))%R.

Definition softmax (z : list R) : list R :=
  map (fun v => exp v / keras.sumR (map exp z))%R z.

(** The convolution blocks of the [Sequential]; a [MaxPooling2D]
    follows each. *)
Definition blocks : list (list Layer) :=
  [ [Conv2D 32 3 1 "same"; Activation "relu"];
    [Conv2D 64 3 1 "same"; Activation "relu"];
    [Conv2D 128 3 1 "same"; Activation "relu";
     Conv2D 128 3 1 "same"; Activation "relu"];
    [Conv2D 256 3 1 "same"; Activation "relu";
     Conv2D 256 3 1 "same"; Activation "relu"] ].

(** The number of convolutions of a block, each of which takes its
    parameters from the head of the weights. *)
Definition convs (block : list Layer) : nat :=
  length (List.filter (fun l => match l with Conv2D _ _ _ _ => true | _ => false end) block).

Fixpoint pooled (bs : list (list Layer)) (ws : Weights) (x : Image) : option Image :=
  match bs with
  | [] => Some x
  | b :: bs' =>
      y ← keras.call b ws x;
      pooled bs' (drop (convs b) ws) (max_pool y)
  end.

(** [features = model(img)] *)
Definition features (ws : Weights) (x : Image) : option (list R) :=
  flatten <$> pooled blocks ws x.

(** The two outputs of the discriminator on one image: [valid] and
    [label]. *)
Definition call (self : CCGAN) (ws : Weights) (wv wl : DenseParams) (x : Image)
  : option (list R * list R) :=
  f ← features ws x;
  Some (map sigmoid (dense 1 wv f),
        softmax (dense (Z.to_nat (num_classes self + 1)) wl f)).

End dnet.

(** ** The combined model and the files on disk *)



(** * Proofs *)

Lemma bind_Ok {A B} (m : M A) (k : A → M B) w a w' :
  m w = Ok a w' → bind m k w = k a w'.
Proof. intros E. unfold bind. now rewrite E. Qed.

Lemma bind_Raise {A B} (m : M A) (k : A → M B) w e w' :
  m w = Raise e w' → bind m k w = Raise e w'.
Proof. intros E. unfold bind. now rewrite E. Qed.

(** The offsets [randint] returns, as a function of the raw draws. *)

Lemma randint_Ok low high (n : nat) w :
  n = 0%nat ∨ low < high →
  np.randint low high (Z.of_nat n) w =
    Ok (reduced (rng w) low high n) (if decide (n = 0%nat) then w else advance n w).
Proof.
  intros Hn. unfold np.randint.
  destruct (Z.ltb_spec (Z.of_nat n) 0); [lia|].
  destruct (Z.eqb_spec (Z.of_nat n) 0) as [E|E].
  - assert (n = 0%nat) as -> by lia. reflexivity.
  - destruct Hn as [->|Hlt]; [lia|].
    destruct (Z.leb_spec high low); [lia|].
    rewrite Nat2Z.id. destruct (decide (n = 0%nat)); [lia|]. reflexivity.
Qed.

Lemma randint_Raise low high (n : nat) w :
  n ≠ 0%nat → high <= low →
  np.randint low high (Z.of_nat n) w = Raise ValueError w.
Proof.
  intros Hn Hle. unfold np.randint.
  destruct (Z.ltb_spec (Z.of_nat n) 0); [lia|].
  destruct (Z.eqb_spec (Z.of_nat n) 0) as [E|E]; [lia|].
  destruct (Z.leb_spec high low); [reflexivity|lia].
Qed.

Lemma reduced_length r low high n : length (reduced r low high n) = n.
Proof. unfold reduced. now rewrite length_map, length_seq. Qed.

Lemma reduced_lookup r low high n i :
  (i < n)%nat → reduced r low high n !! i = Some (low + r i mod (high - low)).
Proof.
  intros Hi. unfold reduced. rewrite list_lookup_fmap.
  rewrite lookup_seq_lt by done. reflexivity.
Qed.

Lemma shape3_junk g img : shape3 (junk g img) = shape3 img.
Proof.
  unfold shape3, junk. rewrite length_map.
  destruct img as [|[|p row] rest]; simpl; try reflexivity.
  now rewrite !length_map.
Qed.

Lemma shape3_assign_rect img y1 y2 x1 x2 v :
  shape3 (np.assign_rect img y1 y2 x1 x2 v) = shape3 img.
Proof.
  unfold shape3, np.assign_rect. rewrite length_imap.
  destruct img as [|[|p row] rest]; simpl; try reflexivity.
  - now destruct (np.in_slice _ _ _ _).
  - destruct (np.in_slice _ y1 y2 _); simpl; [|reflexivity].
    rewrite length_imap.
    destruct (np.in_slice _ x1 x2 _); simpl; now rewrite ?length_map.
Qed.

(** The batch [mask_randomly] returns, given the corners it drew. *)

Lemma partial_0 g y1 y2 x1 x2 imgs :
  partial g y1 y2 x1 x2 0 imgs = map (junk g) imgs.
Proof.
  unfold partial. apply list_eq. intros i.
  rewrite list_lookup_imap, list_lookup_fmap. now destruct (imgs !! i).
Qed.

Lemma partial_all g y1 y2 x1 x2 imgs :
  partial g y1 y2 x1 x2 (length imgs) imgs = mask_with y1 y2 x1 x2 imgs.
Proof.
  unfold partial, mask_with. apply list_eq. intros i.
  rewrite !list_lookup_imap.
  destruct (imgs !! i) eqn:E; simpl; [|reflexivity].
  apply lookup_lt_Some in E.
  destruct (Nat.ltb_spec i (length imgs)); [reflexivity|lia].
Qed.

Lemma partial_step g y1 y2 x1 x2 k imgs img :
  imgs !! k = Some img →
  <[k := np.assign_rect img (nth k y1 0) (nth k y2 0) (nth k x1 0) (nth k x2 0) 0%R]>
    (partial g y1 y2 x1 x2 k imgs) = partial g y1 y2 x1 x2 (S k) imgs.
Proof.
  intros E. unfold partial. apply list_eq. intros i.
  destruct (decide (i = k)) as [->|Hne].
  - rewrite list_lookup_insert_eq by (rewrite length_imap; eauto using lookup_lt_Some).
    rewrite list_lookup_imap, E. simpl.
    destruct (Nat.ltb_spec k (S k)); [reflexivity|lia].
  - rewrite list_lookup_insert_ne by congruence.
    rewrite !list_lookup_imap. destruct (imgs !! i); simpl; [|reflexivity].
    destruct (Nat.ltb_spec i k), (Nat.ltb_spec i (S k)); try reflexivity; lia.
Qed.

(** Everything of the state but the store. *)

(** The body of the loop of [mask_randomly]. *)

Lemma index_nth {A} (xs : list A) i d w :
  (i < length xs)%nat → index xs i w = Ok (nth i xs d) w.
Proof.
  intros Hi. unfold index.
  destruct (xs !! i) eqn:E.
  - now rewrite (nth_lookup_Some _ _ d _ E).
  - apply lookup_ge_None in E. lia.
Qed.

Lemma mask_body_spec l d y1 y2 x1 x2 imgs k img w :
  l ≠ d →
  (k < length y1)%nat → (k < length y2)%nat → (k < length x1)%nat → (k < length x2)%nat →
  imgs !! k = Some img →
  heap w !! l = Some (Arr4 imgs) →
  heap w !! d = Some (Arr4 (partial (garbage w) y1 y2 x1 x2 k imgs)) →
  ∃ w', mask_body l d y1 y2 x1 x2 k w = Ok tt w' ∧
        same_env w w' ∧
        heap w' !! l = Some (Arr4 imgs) ∧
        heap w' !! d = Some (Arr4 (partial (garbage w) y1 y2 x1 x2 (S k) imgs)) ∧
        (∀ l0, l0 ∈ dom (heap w) → l0 ≠ d → heap w' !! l0 = heap w !! l0).
Proof.
  intros Hld H1 H2 H3 H4 Himg Hl Hd.
  set (t := fresh (dom (heap w))).
  assert (Ht : t ∉ dom (heap w)) by apply is_fresh.
  assert (t ≠ l) by (intros ->; apply Ht, elem_of_dom; eauto).
  assert (t ≠ d) by (intros ->; apply Ht, elem_of_dom; eauto).
  eexists. split.
  - unfold mask_body, np.getitem, np.load4, np.load, np.copy, np.alloc, np.store,
      np.setitem_rect, np.setitem, np.load3, np.load4, np.load, bind, ret. simpl.
    rewrite Hl. unfold index at 1. rewrite Himg. simpl. fold t.
    rewrite (index_nth y1 k 0) by done. rewrite (index_nth y2 k 0) by done.
    rewrite (index_nth x1 k 0) by done. rewrite (index_nth x2 k 0) by done.
    simpl. rewrite lookup_insert_eq. simpl.
    rewrite lookup_insert_ne by done. rewrite lookup_insert_ne by done.
    rewrite Hd. simpl. rewrite lookup_insert_eq. simpl.
    unfold index. unfold partial at 1. rewrite list_lookup_imap, Himg. simpl.
    rewrite Nat.ltb_irrefl.
    rewrite shape3_junk, shape3_assign_rect.
    rewrite decide_True by reflexivity. simpl. reflexivity.
  - simpl. split; [done|]. rewrite (partial_step _ _ _ _ _ _ _ _ Himg).
    split; [|split].
    + rewrite lookup_insert_ne by done. rewrite lookup_insert_ne by done.
      now rewrite lookup_insert_ne by done.
    + now rewrite lookup_insert_eq.
    + intros l0 Hl0 Hne. rewrite lookup_insert_ne by done.
      assert (l0 ≠ t) by (intros ->; done).
      rewrite lookup_insert_ne by done. now rewrite lookup_insert_ne by done.
Qed.

Lemma mask_loop_spec l d y1 y2 x1 x2 imgs :
  l ≠ d →
  length y1 = length imgs → length y2 = length imgs →
  length x1 = length imgs → length x2 = length imgs →
  ∀ m k w,
    (k + m = length imgs)%nat →
    heap w !! l = Some (Arr4 imgs) →
    heap w !! d = Some (Arr4 (partial (garbage w) y1 y2 x1 x2 k imgs)) →
    ∃ w', for_each (seq k m) (mask_body l d y1 y2 x1 x2) w = Ok tt w' ∧
          same_env w w' ∧
          heap w' !! l = Some (Arr4 imgs) ∧
          heap w' !! d = Some (Arr4 (partial (garbage w) y1 y2 x1 x2 (k + m) imgs)) ∧
          (∀ l0, l0 ∈ dom (heap w) → l0 ≠ d → heap w' !! l0 = heap w !! l0).
Proof.
  intros Hld L1 L2 L3 L4. induction m as [|m IH]; intros k w Hk Hl Hd.
  - exists w. rewrite Nat.add_0_r. simpl. unfold same_env. eauto 10.
  - destruct (lookup_lt_is_Some_2 imgs k) as [img Himg]; [lia|].
    destruct (mask_body_spec l d y1 y2 x1 x2 imgs k img w)
      as (w1 & E1 & (Er & Eg & Ek & Elog) & Hl1 & Hd1 & Hfr1); try done; try lia.
    rewrite <- Eg in Hd1.
    destruct (IH (S k) w1) as (w' & E' & (Er' & Eg' & Ek' & Elog') & Hl' & Hd' & Hfr');
      [lia|done|done|].
    exists w'. split; [|split; [|split; [|split]]].
    + simpl. now rewrite (bind_Ok _ _ _ _ _ E1).
    + unfold same_env. repeat split; congruence.
    + done.
    + rewrite Hd', Eg. f_equal. f_equal. f_equal. lia.
    + intros l0 Hl0 Hne. rewrite Hfr'; [now apply Hfr1|..|done].
      apply elem_of_dom. rewrite Hfr1 by done. now apply elem_of_dom.
Qed.

(** The four corner vectors [mask_randomly] computes from the raw draws. *)

Lemma draw_offsets_Ok self n w :
  n = 0%nat ∨ (mask_height self < img_rows self ∧ mask_width self < img_rows self) →
  ∃ w', draw_offsets self n w = Ok (corners self (rng w) n) w' ∧
        rng w' = (fun i => rng w (n + (n + i))%nat) ∧ heap w' = heap w ∧
        garbage w' = garbage w ∧ keras w' = keras w ∧ log w' = log w.
Proof.
  intros Hn. unfold draw_offsets, corners.
  destruct (decide (n = 0%nat)) as [->|Hne].
  - exists w. split; [reflexivity|]. repeat split; reflexivity.
  - destruct Hn as [?|[Hh Hw]]; [done|].
    eexists. split.
    + rewrite (bind_Ok _ _ _ _ _ (randint_Ok 0 (img_rows self - mask_height self) n w
                                      ltac:(right; lia))).
      rewrite decide_False by done.
      rewrite (bind_Ok _ _ _ _ _ (randint_Ok 0 (img_rows self - mask_width self) n _
                                      ltac:(right; lia))).
      rewrite decide_False by done. reflexivity.
    + simpl. repeat split; reflexivity.
Qed.

Lemma draw_offsets_Raise self n w :
  n ≠ 0%nat →
  img_rows self <= mask_height self ∨ img_rows self <= mask_width self →
  ∃ w', draw_offsets self n w = Raise ValueError w' ∧
        heap w' = heap w ∧ keras w' = keras w ∧ log w' = log w.
Proof.
  intros Hn Hbad. unfold draw_offsets.
  destruct (Z_lt_le_dec (mask_height self) (img_rows self)) as [Hh|Hh].
  - destruct Hbad as [?|Hw]; [lia|].
    eexists. split.
    + rewrite (bind_Ok _ _ _ _ _ (randint_Ok 0 (img_rows self - mask_height self) n w
                                    ltac:(right; lia))).
      rewrite decide_False by done.
      now rewrite (bind_Raise _ _ _ _ _
                   (randint_Raise 0 (img_rows self - mask_width self) n _ Hn ltac:(lia))).
    + done.
  - exists w. split; [|done].
    now rewrite (bind_Raise _ _ _ _ _
                   (randint_Raise 0 (img_rows self - mask_height self) n _ Hn ltac:(lia))).
Qed.

(** The batch returned for the raw draws [r]. *)

Lemma shape0_run l b w :
  heap w !! l = Some (Arr4 b) → np.shape0 l w = Ok (length b) w.
Proof.
  intros E. unfold np.shape0, np.load4, np.load, bind. now rewrite E.
Qed.

Lemma load4_run l b w :
  heap w !! l = Some (Arr4 b) → np.load4 l w = Ok b w.
Proof.
  intros E. unfold np.load4, np.load, bind. now rewrite E.
Qed.

Lemma empty_like_run l b w :
  heap w !! l = Some (Arr4 b) →
  np.empty_like l w =
    Ok (fresh (dom (heap w)))
       {| rng := rng w;
          heap := <[fresh (dom (heap w)) := Arr4 (map (junk (garbage w)) b)]> (heap w);
          garbage := garbage w; keras := keras w; log := log w |}.
Proof.
  intros E. unfold np.empty_like, np.load4, np.load, np.alloc, np.store, bind.
  now rewrite E.
Qed.

Lemma mask_randomly_run self l imgs w :
  heap w !! l = Some (Arr4 imgs) →
  imgs = [] ∨ (mask_height self < img_rows self ∧ mask_width self < img_rows self) →
  ∃ w', mask_randomly self l w = Ok (fresh (dom (heap w))) w' ∧
        heap w' !! fresh (dom (heap w)) = Some (Arr4 (masked self (rng w) imgs)) ∧
        (∀ l0, l0 ∈ dom (heap w) → heap w' !! l0 = heap w !! l0) ∧
        rng w' = (fun i => rng w (length imgs + (length imgs + i))%nat) ∧
        garbage w' = garbage w ∧ keras w' = keras w ∧ log w' = log w.
Proof.
  intros Hl Hok.
  destruct (draw_offsets_Ok self (length imgs) w) as (w1 & E1 & Er1 & Eh1 & Eg1 & Ek1 & Elog1).
  { destruct Hok as [->|?]; [now left|now right]. }
  set (d := fresh (dom (heap w))).
  assert (Hd : d ∉ dom (heap w)) by apply is_fresh.
  assert (Hld : l ≠ d) by (intros ->; apply Hd, elem_of_dom; eauto).
  unfold masked. destruct (corners self (rng w) (length imgs)) as [[[y1 y2] x1] x2] eqn:Ec.
  assert (length y1 = length imgs ∧ length y2 = length imgs ∧
          length x1 = length imgs ∧ length x2 = length imgs) as (L1 & L2 & L3 & L4).
  { unfold corners in Ec. injection Ec as <- <- <- <-.
    rewrite !length_map, !reduced_length. done. }
  set (w2 := {| rng := rng w1; heap := <[d := Arr4 (map (junk (garbage w1)) imgs)]> (heap w);
                garbage := garbage w1; keras := keras w1; log := log w1 |}).
  destruct (mask_loop_spec l d y1 y2 x1 x2 imgs Hld L1 L2 L3 L4 (length imgs) 0%nat w2)
    as (w' & E' & (Er' & Eg' & Ek' & Elog') & Hl' & Hd' & Hfr').
  { lia. }
  { simpl. now rewrite lookup_insert_ne by done. }
  { simpl. rewrite lookup_insert_eq. now rewrite partial_0. }
  exists w'. split; [|split; [|split]].
  - unfold mask_randomly.
    rewrite (bind_Ok _ _ _ _ _ (shape0_run _ _ _ Hl)).
    rewrite (bind_Ok _ _ _ _ _ E1).
    assert (Hl1 : heap w1 !! l = Some (Arr4 imgs)) by now rewrite Eh1.
    rewrite (bind_Ok _ _ _ _ _ (empty_like_run _ _ _ Hl1)).
    rewrite Eh1. fold d. fold w2.
    change (for_each (seq 0 (length imgs)) ?f) with
      (for_each (seq 0 (length imgs)) (mask_body l d y1 y2 x1 x2)).
    now rewrite (bind_Ok _ _ _ _ _ E').
  - rewrite Hd'. simpl. rewrite partial_all. reflexivity.
  - intros l0 Hl0. assert (l0 ≠ d) by (intros ->; done).
    rewrite Hfr'; [|simpl; apply elem_of_dom; rewrite lookup_insert_ne by done; now apply elem_of_dom|done].
    simpl. now rewrite lookup_insert_ne by done.
  - rewrite Er', Eg', Ek', Elog'. simpl. repeat split; congruence.
Qed.

Lemma in_slice_fit len a b k :
  0 <= a <= b → b <= Z.of_nat len →
  np.in_slice len a b k = (a <=? Z.of_nat k) && (Z.of_nat k <? b).
Proof.
  intros Ha Hb. unfold np.in_slice, np.adjust.
  destruct (Z.ltb_spec a 0); [lia|]. destruct (Z.ltb_spec b 0); [lia|].
  now rewrite !Z.min_l by lia.
Qed.

(** Pixel [(y, x)] lies in the rectangle with corners [(y1, x1)], [(y2, x2)]. *)

Lemma image_shape_hd h w c (img : Image) y row :
  image_shape h w c img → img !! y = Some row → length (hd [] img) = w.
Proof.
  intros [_ HF] Hy. destruct img as [|r0 rest]; [done|].
  simpl. now apply Forall_cons in HF as [[? _] _].
Qed.

Lemma px_assign_rect img h w c y1 y2 x1 x2 v y x ch :
  image_shape h w c img →
  0 <= y1 <= y2 → y2 <= Z.of_nat h → 0 <= x1 <= x2 → x2 <= Z.of_nat w →
  px (np.assign_rect img y1 y2 x1 x2 v) y x ch =
    if in_rect y1 y2 x1 x2 y x then (fun _ => v) <$> px img y x ch else px img y x ch.
Proof.
  intros Hs Hy1 Hy2 Hx1 Hx2. unfold px, np.assign_rect, in_rect.
  rewrite list_lookup_imap.
  destruct (img !! y) as [row|] eqn:Ey; simpl.
  2: { now destruct (_ && _). }
  rewrite (image_shape_hd _ _ _ _ _ _ Hs Ey).
  rewrite (proj1 Hs).
  rewrite (in_slice_fit h) by done.
  destruct ((y1 <=? Z.of_nat y) && (Z.of_nat y <? y2)); simpl; [|reflexivity].
  rewrite list_lookup_imap.
  destruct (row !! x) as [p|]; simpl.
  2: { now destruct (_ && _). }
  rewrite (in_slice_fit w) by done.
  destruct ((x1 <=? Z.of_nat x) && (Z.of_nat x <? x2)); simpl; [|reflexivity].
  now rewrite list_lookup_fmap.
Qed.

Lemma image_shape_assign_rect h w c img y1 y2 x1 x2 v :
  image_shape h w c img → image_shape h w c (np.assign_rect img y1 y2 x1 x2 v).
Proof.
  intros [Hl HF]. unfold np.assign_rect. split; [now rewrite length_imap|].
  apply Forall_lookup. intros i row'. rewrite list_lookup_imap.
  destruct (img !! i) as [row|] eqn:Ei; simpl; [|done].
  intros [= <-]. pose proof (Forall_lookup_1 _ _ _ _ HF Ei) as [Hw Hc].
  destruct (np.in_slice _ y1 y2 i); [|done].
  split; [now rewrite length_imap|].
  apply Forall_lookup. intros j p'. rewrite list_lookup_imap.
  destruct (row !! j) as [p|] eqn:Ej; simpl; [|done].
  intros [= <-]. pose proof (Forall_lookup_1 _ _ _ _ Hc Ej) as Hp.
  destruct (np.in_slice _ x1 x2 j); [now rewrite length_map|done].
Qed.

Lemma mod_range a m : 0 < m → 0 <= a mod m < m.
Proof. intros. now apply Z.mod_pos_bound. Qed.

Lemma masked_lookup self r imgs i img :
  imgs !! i = Some img →
  masked self r imgs !! i =
    Some (let y1 := r i mod (img_rows self - mask_height self) in
          let x1 := r (length imgs + i)%nat mod (img_rows self - mask_width self) in
          np.assign_rect img y1 (y1 + mask_height self) x1 (x1 + mask_width self) 0%R).
Proof.
  intros Ei. pose proof (lookup_lt_Some _ _ _ Ei) as Hi.
  unfold masked, corners, mask_with. rewrite list_lookup_imap, Ei. simpl.
  f_equal.
  assert (N : ∀ rr hi, nth i (reduced rr 0 hi (length imgs)) 0 = rr i mod hi).
  { intros rr hi. erewrite nth_lookup_Some by (apply reduced_lookup; lia).
    rewrite Z.sub_0_r. lia. }
  assert (N' : ∀ rr hi k, nth i (map (fun v => v + k) (reduced rr 0 hi (length imgs))) 0
                          = rr i mod hi + k).
  { intros rr hi k. erewrite nth_lookup_Some.
    2: { rewrite list_lookup_fmap, reduced_lookup by lia. reflexivity. }
    rewrite Z.sub_0_r. lia. }
  now rewrite !N, !N'.
Qed.

(** C1. Take a configuration with square images, as the constructor
    sets it ([img_rows = img_cols = 32]), a mask smaller than the image,
    and a batch of images of the configured size stored at [l].  Then
    [mask_randomly] returns a new array [l'] of the same shape; in image
    [i] the rectangle of [mask_height] x [mask_width] whose top-left
    corner is that image's own pair of draws is 0 on every channel, and
    every pixel outside it is the input's; the input array, like every
    other array of the store, is what it was. *)
Theorem mask_randomly_zeroes_one_rectangle
    (self : CCGAN) (w : World) (l : loc) (imgs : Batch) (n h wd c : nat) :
  heap w !! l = Some (Arr4 imgs) →
  batch_shape n h wd c imgs →
  img_rows self = Z.of_nat h → img_cols self = Z.of_nat wd →
  img_rows self = img_cols self →
  0 <= mask_height self < img_rows self →
  0 <= mask_width self < img_cols self →
  ∃ l' w' out,
    mask_randomly self l w = Ok l' w' ∧
    (l' ∉ dom (heap w)) ∧
    heap w' !! l' = Some (Arr4 out) ∧
    batch_shape n h wd c out ∧
    heap w' !! l = Some (Arr4 imgs) ∧
    (∀ l0 a, heap w !! l0 = Some a → heap w' !! l0 = Some a) ∧
    ∀ i img, imgs !! i = Some img →
      ∃ out_img y1 x1,
        out !! i = Some out_img ∧
        y1 = rng w i mod (img_rows self - mask_height self) ∧
        x1 = rng w (n + i)%nat mod (img_rows self - mask_width self) ∧
        0 <= y1 ∧ y1 + mask_height self <= img_rows self ∧
        0 <= x1 ∧ x1 + mask_width self <= img_cols self ∧
        ∀ y x ch v, px img y x ch = Some v →
          px out_img y x ch =
            Some (if in_rect y1 (y1 + mask_height self) x1 (x1 + mask_width self) y x
                  then 0%R else v).
Proof.
  intros Hl [Hn HF] Hr Hc Hsq Hmh Hmw.
  destruct (mask_randomly_run self l imgs w Hl) as (w' & E & Hout & Hfr & _).
  { right. lia. }
  exists (fresh (dom (heap w))), w', (masked self (rng w) imgs).
  assert (Hlk : ∀ i img, imgs !! i = Some img →
            masked self (rng w) imgs !! i =
            Some (np.assign_rect img
                    (rng w i mod (img_rows self - mask_height self))
                    (rng w i mod (img_rows self - mask_height self) + mask_height self)
                    (rng w (n + i)%nat mod (img_rows self - mask_width self))
                    (rng w (n + i)%nat mod (img_rows self - mask_width self) + mask_width self)
                    0%R)).
  { intros i img Ei. rewrite (masked_lookup _ _ _ _ _ Ei). now rewrite Hn. }
  split; [done|]. split; [apply is_fresh|]. split; [done|].
  split; [|split; [|split]].
  - split.
    + unfold masked, corners, mask_with. now rewrite length_imap.
    + apply Forall_lookup. intros i out_img Ei.
      destruct (imgs !! i) as [img|] eqn:Eimg.
      * rewrite (Hlk _ _ Eimg) in Ei. injection Ei as <-.
        apply image_shape_assign_rect. eapply Forall_lookup_1; eauto.
      * apply lookup_ge_None in Eimg. apply lookup_lt_Some in Ei.
        unfold masked, corners, mask_with in Ei. rewrite length_imap in Ei. lia.
  - rewrite Hfr by (eapply elem_of_dom_2; eauto). exact Hl.
  - intros l0 a E0. rewrite Hfr by (eapply elem_of_dom_2; eauto). exact E0.
  - intros i img Ei. eexists _, _, _. split; [exact (Hlk _ _ Ei)|].
    split; [reflexivity|]. split; [reflexivity|].
    pose proof (mod_range (rng w i) (img_rows self - mask_height self) ltac:(lia)).
    pose proof (mod_range (rng w (n + i)%nat) (img_rows self - mask_width self) ltac:(lia)).
    repeat (split; [lia|]).
    intros y x ch v Hpx.
    rewrite (px_assign_rect _ h wd c); try lia.
    + rewrite Hpx. now destruct (in_rect _ _ _ _ _ _).
    + eapply Forall_lookup_1; eauto.
Qed.

Lemma constant_batch_shape n h w c v : batch_shape n h w c (constant_batch n h w c v).
Proof.
  unfold batch_shape, constant_batch, image_shape.
  split; [apply length_replicate|].
  apply Forall_replicate. split; [apply length_replicate|].
  apply Forall_replicate. split; [apply length_replicate|].
  apply Forall_replicate, length_replicate.
Qed.

(** The hypotheses of C1 hold for the constructor's attributes and a
    batch of two 32 x 32 x 3 images. *)
Lemma mask_randomly_zeroes_one_rectangle_witness :
  ∃ l' w', mask_randomly attributes 0%nat
             (world_with (fun i => 7 * Z.of_nat i + 3) (constant_batch 2 32 32 3 1%R))
           = Ok l' w'.
Proof.
  destruct (mask_randomly_zeroes_one_rectangle attributes
              (world_with (fun i => 7 * Z.of_nat i + 3) (constant_batch 2 32 32 3 1%R))
              0%nat (constant_batch 2 32 32 3 1%R) 2 32 32 3)
    as (l' & w' & out & E & _).
  - reflexivity.
  - apply constant_batch_shape.
  - reflexivity.
  - reflexivity.
  - reflexivity.
  - simpl. lia.
  - simpl. lia.
  - exists l', w'. exact E.
Defined.

Lemma construct_run `{Backend} (self : CCGAN) w :
  ∃ w', construct self w = Ok self w' ∧
        log w' = log w ++ init_events ∧
        ready (keras w') ∧
        g_weights (keras w') = initializer G ∧
        d_weights (keras w') = initializer D ∧
        rng w' = rng w ∧ heap w' = heap w ∧ garbage w' = garbage w.
Proof.
  eexists. split; [cbv -[app]; reflexivity|].
  cbv -[app]. rewrite <- !app_assoc. simpl. repeat split; reflexivity.
Qed.

(** C7. When [mask_height >= img_rows] or [mask_width >= img_rows],
    construction succeeds all the same (nothing validates the mask
    against the image), and [mask_randomly] raises [ValueError], from
    [randint], on every batch that is not empty; no array has been
    created by then. *)
Theorem mask_randomly_range_error `{Backend} (self : CCGAN) :
  img_rows self <= mask_height self ∨ img_rows self <= mask_width self →
  (∀ w0, ∃ w1, construct self w0 = Ok self w1) ∧
  (∀ w l imgs, imgs ≠ [] → heap w !! l = Some (Arr4 imgs) →
     ∃ w', mask_randomly self l w = Raise ValueError w' ∧ heap w' = heap w).
Proof.
  intros Hbad. split.
  - intros w0. destruct (construct_run self w0) as (w1 & E & _). eauto.
  - intros w l imgs Hne Hl.
    destruct (draw_offsets_Raise self (length imgs) w) as (w' & E & Eh & _).
    { now destruct imgs. }
    { exact Hbad. }
    exists w'. split; [|exact Eh].
    unfold mask_randomly.
    rewrite (bind_Ok _ _ _ _ _ (shape0_run _ _ _ Hl)).
    now rewrite (bind_Raise _ _ _ _ _ E).
Qed.

(** C7 for a mask of 32 rows on images of 32 rows. *)
Lemma mask_randomly_range_error_witness :
  ∃ w', mask_randomly tall_mask 0%nat
          (world_with (fun _ => 0) (constant_batch 1 32 32 3 1%R)) = Raise ValueError w'.
Proof.
  destruct (mask_randomly_range_error (H := idle_backend) tall_mask) as [_ Hr].
  - left. simpl. lia.
  - destruct (Hr (world_with (fun _ => 0) (constant_batch 1 32 32 3 1%R)) 0%nat
                 (constant_batch 1 32 32 3 1%R)) as (w' & E & _).
    + discriminate.
    + reflexivity.
    + exists w'. exact E.
Defined.

Lemma reduced_in_range r high n : 0 < high → in_range high (reduced r 0 high n).
Proof.
  intros Hh. unfold in_range, reduced. apply Forall_map, Forall_forall. intros i _.
  simpl. pose proof (mod_range (r i) (high - 0) ltac:(lia)). lia.
Qed.




Lemma px_map3 (f : R → R) (img : Image) y x ch :
  px (map (map (map f)) img) y x ch = f <$> px img y x ch.
Proof.
  unfold px. rewrite list_lookup_fmap. destruct (img !! y) as [row|]; simpl; [|done].
  rewrite list_lookup_fmap. destruct (row !! x) as [p|]; simpl; [|done].
  now rewrite list_lookup_fmap.
Qed.

Lemma px_map3_raw (f : Z → R) (img : RawImage) y x ch :
  px (map (map (map f)) img) y x ch = f <$> raw_px img y x ch.
Proof.
  unfold px, raw_px. rewrite list_lookup_fmap.
  destruct (img !! y) as [row|]; simpl; [|done].
  rewrite list_lookup_fmap. destruct (row !! x) as [p|]; simpl; [|done].
  now rewrite list_lookup_fmap.
Qed.

Lemma rescale_lookup X i img :
  X !! i = Some img →
  rescale X !! i =
    Some (map (map (map (fun v => 2 * v - 1)%R)) (map (map (map (fun p => IZR p / 255)%R)) img)).
Proof.
  intros E. unfold rescale, npx.map4. now rewrite !list_lookup_fmap, E.
Qed.

(** C6. A raw intensity [p] in [{0, ..., 255}] at any place of the
    training images becomes [2 * (p / 255) - 1] at the same place: 0
    becomes -1, 255 becomes 1, and the value lies in [[-1, 1]]. *)
Theorem rescale_pixel (X : list RawImage) (i y x ch : nat) (img : RawImage) (p : Z) :
  X !! i = Some img →
  raw_px img y x ch = Some p →
  0 <= p <= 255 →
  ∃ img' v,
    rescale X !! i = Some img' ∧
    px img' y x ch = Some v ∧
    v = (2 * (IZR p / 255) - 1)%R ∧
    (-1 <= v <= 1)%R ∧
    (p = 0 → v = (-1)%R) ∧
    (p = 255 → v = 1%R).
Proof.
  intros Ei Ep Hp. eexists _, _. split; [exact (rescale_lookup _ _ _ Ei)|].
  split; [rewrite px_map3, px_map3_raw, Ep; reflexivity|].
  split; [reflexivity|].
  assert (0 <= IZR p <= 255)%R as [H0 H1].
  { split; [apply (IZR_le 0)|apply (IZR_le p 255)]; lia. }
  split; [|split].
  - split; lra.
  - intros ->. lra.
  - intros ->. lra.
Qed.

(** C6 at the third channel of a one-pixel image. *)
Lemma rescale_pixel_witness :
  ∃ img' v, rescale [ [[[0; 128; 255]]] ] !! 0%nat = Some img' ∧
            px img' 0 0 2 = Some v ∧ v = 1%R.
Proof.
  destruct (rescale_pixel [ [[[0; 128; 255]]] ] 0 0 0 2 [[[0; 128; 255]]] 255)
    as (img' & v & E1 & E2 & _ & _ & _ & E3).
  - reflexivity.
  - reflexivity.
  - lia.
  - exists img', v. split; [exact E1|]. split; [exact E2|]. apply E3. reflexivity.
Defined.

Lemma concat_singletons {A} (m : list (list A)) :
  Forall (fun row => length row = 1%nat) m → length (concat m) = length m.
Proof.
  induction 1 as [|row m Hrow _ IH]; [done|].
  simpl. rewrite length_app, IH, Hrow. done.
Qed.

Lemma flatten_eq_scalar y v :
  npx.flatten (npx.eq_scalar y v) = map (fun e => e =? v) (concat y).
Proof.
  unfold npx.flatten, npx.eq_scalar. induction y as [|row y IH]; [done|].
  simpl. now rewrite map_app, IH.
Qed.

Lemma mask_rows_with_label (X : list RawImage) (L : list Z) v w :
  length X = length L →
  npx.mask_rows X (map (fun e => e =? v) L) w = Ok (with_label v (zip X L)) w.
Proof.
  intros Hl. unfold npx.mask_rows. rewrite length_map.
  rewrite decide_True by done. unfold ret. f_equal.
  unfold with_label. clear Hl. revert L.
  induction X as [|x X IH]; intros [|l L]; simpl; try done.
  rewrite filter_cons. simpl. destruct (Z.eqb_spec l v).
  - rewrite decide_True by done. simpl. now rewrite IH.
  - rewrite decide_False by done. apply IH.
Qed.

Lemma select_eq_replicate y v :
  npx.select_eq y v = replicate (length (npx.select_eq y v)) v.
Proof.
  unfold npx.select_eq. induction (npx.flatten y) as [|e l IH]; [done|].
  rewrite filter_cons. destruct (decide (e = v)) as [->|]; [|done].
  simpl. now rewrite <- IH.
Qed.

Lemma select_eq_length (X : list RawImage) y v :
  length X = length (concat y) →
  length (npx.select_eq y v) = length (with_label v (zip X (concat y))).
Proof.
  unfold npx.select_eq, npx.flatten, with_label. generalize (concat y) as L.
  intros L. revert X. induction L as [|l L IH]; intros [|x X] Hl; simpl in *; try done.
  rewrite !filter_cons. simpl. destruct (decide (l = v)); simpl; rewrite (IH X); auto.
Qed.

Lemma assign_where_replicate k a v u :
  map (fun e => if e =? v then u else e) (replicate k a) =
  replicate k (if a =? v then u else a).
Proof. now rewrite fmap_replicate. Qed.

Lemma load_data_run (data : Dataset) (w : World) :
  well_formed data →
  balanced data →
  let cats := with_label 3 (samples data) in
  let dogs := with_label 5 (samples data) in
  ∃ X_train y_train,
    load_data data w = Ok (X_train, y_train) w ∧
    X_train = rescale (cats ++ dogs) ∧
    y_train = replicate (length cats) [0] ++ replicate (length dogs) [1] ∧
    length X_train = length y_train ∧
    Forall (fun row => row = [0] ∨ row = [1]) y_train.
Proof.
  destruct data as [[Xtr ytr] [Xte yte]]. unfold well_formed, balanced, samples. simpl.
  intros (L1 & L2 & Hrows) Hbal.
  set (X := Xtr ++ Xte) in *. set (L := concat (ytr ++ yte)) in *.
  assert (HL : length X = length L).
  { unfold X, L. rewrite concat_singletons by done. rewrite !length_app. lia. }
  set (cats := with_label 3 (zip X L)) in *. set (dogs := with_label 5 (zip X L)) in *.
  assert (Ey : npx.vstack2 ytr yte w = Ok (ytr ++ yte) w).
  { unfold npx.vstack2. destruct ytr as [|ra ytr']; [done|].
    destruct yte as [|rb yte']; [done|].
    rewrite decide_True; [done|].
    apply Forall_app in Hrows as [Ha Hb].
    apply Forall_cons in Ha as [-> _]. now apply Forall_cons in Hb as [-> _]. }
  eexists _, _. split.
  - unfold load_data.
    rewrite (bind_Ok _ _ _ _ _ Ey).
    rewrite !flatten_eq_scalar. fold L. fold X.
    rewrite (bind_Ok _ _ _ _ _ (mask_rows_with_label X L 3 w HL)).
    rewrite (bind_Ok _ _ _ _ _ (mask_rows_with_label X L 5 w HL)).
    fold cats dogs.
    unfold npx.vstack1.
    rewrite decide_True
      by (rewrite !(select_eq_length X) by done; fold L cats dogs; done).
    unfold bind, ret. reflexivity.
  - split; [reflexivity|].
    assert (Ey3 : npx.select_eq (ytr ++ yte) 3 = replicate (length cats) 3).
    { rewrite select_eq_replicate. f_equal. now apply select_eq_length. }
    assert (Ey5 : npx.select_eq (ytr ++ yte) 5 = replicate (length dogs) 5).
    { rewrite select_eq_replicate. f_equal. now apply select_eq_length. }
    rewrite Ey3, Ey5.
    assert (Eyt : npx.reshape_col
              (npx.assign_where
                 (npx.assign_where [replicate (length cats) 3; replicate (length dogs) 5] 3 0)
                 5 1)
            = replicate (length cats) [0] ++ replicate (length dogs) [1]).
    { unfold npx.reshape_col, npx.assign_where, npx.flatten. simpl.
      rewrite !assign_where_replicate. simpl.
      rewrite app_nil_r, map_app. now rewrite !fmap_replicate. }
    rewrite Eyt. split; [reflexivity|]. split.
    + unfold rescale, npx.map4.
      rewrite !length_map, !length_app, !length_replicate. done.
    + apply Forall_app. split; apply Forall_replicate; auto.
Qed.




Lemma mapM_pure {A B} (f : A → M B) (g : A → B) xs w :
  (∀ x w, f x w = Ok (g x) w) → npx.mapM f xs w = Ok (map g xs) w.
Proof.
  intros Hf. induction xs as [|x xs IH]; [done|].
  simpl. rewrite (bind_Ok _ _ _ _ _ (Hf x w)). now rewrite (bind_Ok _ _ _ _ _ IH).
Qed.

Lemma true_div_Ok a b w : b ≠ 0 → npx.true_div a b w = Ok (IZR a / IZR b)%R w.
Proof.
  intros Hb. unfold npx.true_div. now destruct (Z.eqb_spec b 0).
Qed.

Lemma true_div_Raise a w : npx.true_div a 0 w = Raise ZeroDivisionError w.
Proof. reflexivity. Qed.

Lemma elem_of_range n i : i ∈ npx.range n ↔ 0 <= i < n.
Proof.
  unfold npx.range. rewrite list_elem_of_fmap. split.
  - intros (k & -> & Hk). apply elem_of_seq in Hk. lia.
  - intros Hi. exists (Z.to_nat i). split; [lia|]. apply elem_of_seq. lia.
Qed.

Lemma lookup_constant_map (c : R) (ks : list Z) (i : Z) :
  (list_to_map (map (fun k => (k, c)) ks) : gmap Z R) !! i =
    if decide (i ∈ ks) then Some c else None.
Proof.
  induction ks as [|k ks IH].
  - destruct (decide (i ∈ [])) as [Hin|_]; [now apply not_elem_of_nil in Hin|].
    apply lookup_empty.
  - change (list_to_map (map (fun k => (k, c)) (k :: ks)) : gmap Z R)
      with (<[k := c]> (list_to_map (map (fun k => (k, c)) ks) : gmap Z R)).
    destruct (decide (k = i)) as [->|Hne].
    + rewrite lookup_insert_eq.
      destruct (decide (i ∈ i :: ks)) as [_|Hn]; [done|].
      exfalso. apply Hn, list_elem_of_here.
    + rewrite lookup_insert_ne by done. rewrite IH.
      destruct (decide (i ∈ ks)) as [Hin|Hn], (decide (i ∈ k :: ks)) as [Hin'|Hn'];
        try done.
      * exfalso. apply Hn'. now apply list_elem_of_further.
      * exfalso. apply elem_of_cons in Hin' as [?|?]; [congruence|done].
Qed.

Lemma class_weights_run (self : CCGAN) (batch_size : Z) (w : World) :
  2 <= batch_size →
  let half_batch := batch_size / 2 in
  ∃ cw1 cw2 : gmap Z R,
    class_weights self batch_size w = Ok (half_batch, [cw1; cw2]) w ∧
    (∀ i, cw1 !! i = if decide (i = 0 ∨ i = 1) then Some 1%R else None) ∧
    (∀ i, 0 <= i < num_classes self →
          cw2 !! i = Some (IZR (num_classes self) / IZR half_batch)%R) ∧
    cw2 !! num_classes self = Some (1 / IZR half_batch)%R ∧
    (∀ i, ¬ (0 <= i < num_classes self) → i ≠ num_classes self → cw2 !! i = None).
Proof.
  intros Hb half_batch.
  assert (Hq : Z.quot batch_size 2 = half_batch)
    by (unfold half_batch; apply Z.quot_div_nonneg; lia).
  assert (Hhb : half_batch ≠ 0).
  { unfold half_batch. pose proof (Z.div_le_mono 2 batch_size 2 ltac:(lia) Hb) as Hd.
    change (2 / 2) with 1 in Hd. lia. }
  eexists _, _. split.
  - unfold class_weights. rewrite Hq.
    assert (Em : npx.mapM (fun i => v <- npx.true_div (num_classes self) half_batch ;;
                                    ret (i, v))
                   (npx.range (num_classes self)) w
                 = Ok (map (fun i => (i, (IZR (num_classes self) / IZR half_batch)%R))
                           (npx.range (num_classes self))) w).
    { apply mapM_pure. intros x w'.
      now rewrite (bind_Ok _ _ _ _ _ (true_div_Ok (num_classes self) half_batch w' Hhb)). }
    rewrite (bind_Ok _ _ _ _ _ Em).
    rewrite (bind_Ok _ _ _ _ _ (true_div_Ok 1 _ w Hhb)). reflexivity.
  - split; [|split; [|split]].
    + intros i. destruct (decide (i = 0 ∨ i = 1)) as [[->| ->]|Hn].
      * reflexivity.
      * reflexivity.
      * rewrite lookup_insert_ne by (intros <-; apply Hn; auto).
        apply lookup_singleton_ne. intros <-. apply Hn; auto.
    + intros i Hi. rewrite lookup_insert_ne by lia.
      rewrite lookup_constant_map.
      destruct (decide (i ∈ npx.range (num_classes self))) as [_|Hn]; [done|].
      exfalso. apply Hn. now apply elem_of_range.
    + apply lookup_insert_eq.
    + intros i Hi Hne. rewrite lookup_insert_ne by done.
      rewrite lookup_constant_map.
      destruct (decide (i ∈ npx.range (num_classes self))) as [Hin|_]; [|done].
      apply elem_of_range in Hin. lia.
Qed.




Lemma tanh_range x : (-1 <= tanh x <= 1)%R.
Proof.
  unfold tanh, sinh, cosh.
  pose proof (exp_pos x) as Ha. pose proof (exp_pos (- x)) as Hb.
  set (a := exp x) in *. set (b := exp (- x)) in *.
  assert (Hq1 : (0 < b / (a + b))%R) by (apply Rdiv_lt_0_compat; lra).
  assert (Hq2 : (0 < a / (a + b))%R) by (apply Rdiv_lt_0_compat; lra).
  split.
  - replace ((a - b) / 2 / ((a + b) / 2))%R with (-1 + 2 * (a / (a + b)))%R by (field; lra).
    lra.
  - replace ((a - b) / 2 / ((a + b) / 2))%R with (1 - 2 * (b / (a + b)))%R by (field; lra).
    lra.
Qed.

Lemma image_shape_map3 (f : R → R) h w c (x : Image) :
  image_shape h w c x → image_shape h w c (map (map (map f)) x).
Proof.
  intros [Hl HF]. split; [now rewrite length_map|].
  apply Forall_map. eapply Forall_impl; [exact HF|]. simpl.
  intros row [Hw Hc]. split; [now rewrite length_map|].
  apply Forall_map. eapply Forall_impl; [exact Hc|]. simpl.
  intros p Hp. now rewrite length_map.
Qed.

Lemma image_shape_upsample h w c (x : Image) :
  image_shape h w c x → image_shape (2 * h) (2 * w) c (keras.upsample x).
Proof.
  intros [Hl HF]. subst h. unfold keras.upsample.
  induction HF as [|row x [Hw Hc] _ IH]; [split; [done|constructor]|].
  destruct IH as [IHl IHF]. simpl.
  assert (Hrow : length (flat_map (fun p : list R => [p; p]) row) = (2 * w)%nat ∧
                 Forall (fun p => length p = c) (flat_map (fun p : list R => [p; p]) row)).
  { subst w. clear -Hc. induction Hc as [|p row Hp _ [IH1 IH2]]; [split; [done|constructor]|].
    simpl. split; [lia|]. repeat (constructor; [done|]). done. }
  split; [simpl; lia|]. repeat (constructor; [done|]). done.
Qed.

Lemma conv2d_shape f k s wt h w c (x : Image) :
  s ≠ 0%nat → image_shape h w c x →
  ∃ y, keras.conv2d f k s "same" wt x = Some y ∧
       image_shape ((h + s - 1) / s) ((w + s - 1) / s) f y.
Proof.
  intros Hs [Hl HF]. unfold keras.conv2d, shape3, keras.conv_out_len.
  destruct (Nat.eqb_spec s 0); [done|]. simpl.
  eexists. split; [reflexivity|].
  split; [now rewrite length_map, length_seq, Hl|].
  destruct x as [|row x'].
  - simpl in Hl. subst h. simpl.
    rewrite (Nat.div_small (s - 1) s) by lia. constructor.
  - apply Forall_cons in HF as [[Hw _] _]. simpl hd. rewrite Hw.
    apply Forall_map, Forall_forall. intros i _. split.
    + now rewrite length_map, length_seq.
    + apply Forall_map, Forall_forall. intros j _.
      now rewrite length_map, length_seq.
Qed.

Lemma call_shape ls : ∀ ws (x : Image) h w c s',
  image_shape h w c x → out_shapes ls (h, w, c) = Some s' →
  ∃ y, keras.call ls ws x = Some y ∧ image_shape s'.1.1 s'.1.2 s'.2 y.
Proof.
  induction ls as [|l ls IH]; intros ws x h w c s' Hx Hs.
  - injection Hs as <-. exists x. done.
  - simpl in Hs. destruct l as [f k st p| fn |].
    + simpl in Hs. destruct (decide (p = "same")) as [->|]; [|done].
      unfold keras.conv_out_len in Hs.
      destruct (Nat.eqb_spec st 0) as [|Hst]; [done|]. simpl in Hs.
      destruct (conv2d_shape f k st (hd ([], []) ws) h w c x Hst Hx) as (y & Ey & Hy).
      simpl. rewrite Ey. simpl. eapply IH; eauto.
    + simpl in Hs. simpl. destruct (keras.get_activation fn) as [a|]; [|done]. simpl in *.
      eapply IH; [|exact Hs]. now apply image_shape_map3.
    + simpl. eapply IH; [|exact Hs]. now apply image_shape_upsample.
Qed.

Lemma call_snoc_activation ls fn : ∀ ws x,
  keras.call (ls ++ [Activation fn]) ws x =
    y ← keras.call ls ws x; a ← keras.get_activation fn; Some (map (map (map a)) y).
Proof.
  induction ls as [|l ls IH]; intros ws x.
  - simpl. now destruct (keras.get_activation fn).
  - destruct l as [f k st p| fn' |]; simpl.
    + destruct (keras.conv2d f k st p (hd ([], []) ws) x); simpl; [apply IH|done].
    + destruct (keras.get_activation fn'); simpl; [apply IH|done].
    + apply IH.
Qed.

Lemma all_px_map3 (P : R → Prop) (a : R → R) (y : Image) :
  (∀ v, P (a v)) → all_px P (map (map (map a)) y).
Proof.
  intros Ha. unfold all_px.
  apply Forall_map, Forall_forall. intros row _.
  apply Forall_map, Forall_forall. intros p _.
  apply Forall_map, Forall_forall. intros v _. apply Ha.
Qed.

Lemma call_generator self ws (x : Image) cin :
  image_shape 32 32 cin x →
  ∃ y, keras.call (generator_layers self) ws x = Some y ∧
       image_shape 32 32 (Z.to_nat (channels self)) y ∧
       all_px (fun v => -1 <= v <= 1)%R y.
Proof.
  intros Hx.
  destruct (call_shape (generator_layers self) ws x 32 32 cin
              (32, 32, Z.to_nat (channels self))%nat Hx eq_refl) as (y & Ey & Hy).
  exists y. split; [exact Ey|]. split; [exact Hy|].
  set (front := take 14 (generator_layers self)).
  assert (Hg : generator_layers self = front ++ [Activation "tanh"]) by reflexivity.
  rewrite Hg, call_snoc_activation in Ey.
  destruct (keras.call front ws x) as [z|]; [|done].
  simpl in Ey. injection Ey as <-. apply all_px_map3, tanh_range.
Qed.

Lemma call_batch_Forall (Q P : Image → Prop) ls ws (xs : Batch) :
  (∀ x, Q x → ∃ y, keras.call ls ws x = Some y ∧ P y) →
  Forall Q xs →
  ∃ ys, keras.call_batch ls ws xs = Some ys ∧ length ys = length xs ∧ Forall P ys.
Proof.
  intros Hc. induction 1 as [|x xs Hx _ (ys & E & Hl & HF)].
  - exists []. done.
  - destruct (Hc x Hx) as (y & Ey & Hy). exists (y :: ys).
    simpl. rewrite Ey, E. simpl. split; [done|]. split; [now rewrite Hl|].
    now constructor.
Qed.

Lemma predict_run ls (x y : Batch) w :
  keras.call_batch ls (g_weights (keras w)) x = Some y →
  Model.predict ls x w = Ok y (logged [EvPredict generator x] w).
Proof.
  intros E. unfold Model.predict, get_keras, emit, bind. simpl. now rewrite E.
Qed.

(** C2. For a batch of shape [(n, 32, 32, 3)] and any weights, the
    generator of the constructed object returns a batch of shape
    [(n, 32, 32, 3)] (16, 8, 4 after the three stride-2 convolutions, then
    8, 16, 32 after the three upsamplings), and every value of it lies in
    [[-1, 1]], the last layer being [tanh]. *)
Theorem generator_output_shape_and_range (w : World) (x : Batch) (n : nat) :
  batch_shape n 32 32 3 x →
  ∃ y w',
    Model.predict (generator_layers attributes) x w = Ok y w' ∧
    batch_shape n 32 32 3 y ∧
    Forall (all_px (fun v => -1 <= v <= 1)%R) y.
Proof.
  intros [Hn HF].
  destruct (call_batch_Forall (image_shape 32 32 3)
              (fun y => image_shape 32 32 3 y ∧ all_px (fun v => -1 <= v <= 1)%R y)
              (generator_layers attributes) (g_weights (keras w)) x)
    as (y & E & Hl & Hy).
  { intros x0 Hx0. destruct (call_generator attributes (g_weights (keras w)) x0 3 Hx0)
      as (y0 & E0 & H1 & H2). eauto. }
  { exact HF. }
  exists y, (logged [EvPredict generator x] w).
  split; [now apply predict_run|]. split.
  - split; [lia|]. eapply Forall_impl; [exact Hy|]. now intros ? [? _].
  - eapply Forall_impl; [exact Hy|]. now intros ? [_ ?].
Qed.

(** C2 on one black image. *)
Lemma generator_output_shape_and_range_witness :
  ∃ y w', Model.predict (generator_layers attributes) (constant_batch 1 32 32 3 0%R)
            (world0 (fun _ => 0)) = Ok y w' ∧
          batch_shape 1 32 32 3 y.
Proof.
  destruct (generator_output_shape_and_range (world0 (fun _ => 0))
              (constant_batch 1 32 32 3 0%R) 1) as (y & w' & E & Hs & _).
  - apply constant_batch_shape.
  - exists y, w'. split; [exact E|exact Hs].
Defined.



Lemma randint_sample N size w :
  0 < N → 0 < size →
  np.randint 0 N size w =
    Ok (reduced (rng w) 0 N (Z.to_nat size)) (advance (Z.to_nat size) w).
Proof.
  intros HN Hs. rewrite <- (Z2Nat.id size) at 1 by lia.
  rewrite randint_Ok by (right; lia). now rewrite decide_False by lia.
Qed.

Lemma reduced_bounds r N n :
  0 < N → Forall (fun i => 0 <= i < N) (reduced r 0 N n).
Proof.
  intros HN. eapply Forall_impl; [apply reduced_in_range, HN|]. simpl. intros; lia.
Qed.

Lemma item_run {A} (d : A) (xs : list A) i w :
  0 <= i < Z.of_nat (length xs) → npx.item xs i w = Ok (nth (Z.to_nat i) xs d) w.
Proof.
  intros Hi. unfold npx.item. destruct (Z.ltb_spec i 0); [lia|].
  destruct (Z.ltb_spec i 0); [lia|]. apply index_nth. lia.
Qed.

Lemma take_run {A} (d : A) (xs : list A) idx w :
  Forall (fun i => 0 <= i < Z.of_nat (length xs)) idx →
  npx.take xs idx w = Ok (pick d xs idx) w.
Proof.
  intros Hidx. unfold npx.take, pick. induction Hidx as [|i idx Hi _ IH]; [done|].
  simpl. rewrite (bind_Ok _ _ _ _ _ (item_run d xs i w Hi)).
  now rewrite (bind_Ok _ _ _ _ _ IH).
Qed.

Lemma full_run {A} n (v : A) w :
  0 <= n → npx.full n v w = Ok (replicate (Z.to_nat n) [v]) w.
Proof. intros Hn. unfold npx.full. now destruct (Z.ltb_spec n 0); [lia|]. Qed.

Lemma to_categorical_run (y : list (list Z)) nc w :
  Forall (fun l => 0 <= l < nc) (concat y) →
  npx.to_categorical y nc w = Ok (one_hot nc (concat y)) w.
Proof.
  intros Hy. unfold npx.to_categorical, npx.flatten, one_hot.
  induction Hy as [|l ls Hl _ IH]; [done|].
  simpl. destruct (Z.ltb_spec l 0); [lia|].
  destruct (Z.leb_spec 0 l); [|lia]. destruct (Z.ltb_spec l nc); [|lia]. simpl.
  unfold bind at 1. unfold ret at 1. now rewrite (bind_Ok _ _ _ _ _ IH).
Qed.


Lemma train_on_batch_run `{Backend} m c x y cw w :
  Model.get_compiled m (keras w) = Some c →
  Model.train_on_batch m x y cw w = Ok (reports m c x y cw (keras w)) (trained m c x y cw w).
Proof.
  intros Ec. unfold Model.train_on_batch, get_keras, bind. simpl. now rewrite Ec.
Qed.

Lemma call_total ls : forallb runnable ls = true →
  ∀ ws x, ∃ y, keras.call ls ws x = Some y.
Proof.
  induction ls as [|l ls IH]; intros Hr ws x; [by eexists|].
  simpl in Hr. apply andb_prop in Hr as [Hl Hls]. destruct l as [f k s p|fn|]; simpl in *.
  - apply andb_prop in Hl as [Hs Hp]. apply bool_decide_eq_true in Hp as ->.
    apply negb_true_iff, Nat.eqb_neq in Hs.
    unfold keras.conv2d, keras.conv_out_len. destruct (shape3 x) as [[h wd] c].
    destruct (Nat.eqb_spec s 0); [done|]. simpl. apply IH, Hls.
  - apply bool_decide_eq_true in Hl as [a ->]. simpl. apply IH, Hls.
  - apply IH, Hls.
Qed.

Lemma call_batch_total ls ws xs :
  forallb runnable ls = true →
  ∃ ys, keras.call_batch ls ws xs = Some ys ∧ length ys = length xs.
Proof.
  intros Hr. induction xs as [|x xs (ys & E & Hl)]; [by exists []|].
  destruct (call_total ls Hr ws x) as [y Ey]. exists (y :: ys).
  simpl. rewrite Ey, E. simpl. now rewrite Hl.
Qed.

Lemma generator_runnable self : forallb runnable (generator_layers self) = true.
Proof. reflexivity. Qed.

Lemma predict_generator self x w :
  ∃ y, Model.predict (generator_layers self) x w = Ok y (logged [EvPredict generator x] w) ∧
       generated self (keras w) x y ∧
       length y = length x.
Proof.
  destruct (call_batch_total (generator_layers self) (g_weights (keras w)) x
              (generator_runnable self)) as (y & E & Hl).
  exists y. split; [now apply predict_run|done].
Qed.


Lemma axes_row_length c k l : (k <= c)%nat → (k <= length l)%nat →
  length (axes_row c k l) = c.
Proof.
  intros. unfold axes_row. rewrite length_app, length_fmap, length_take, length_replicate. lia.
Qed.

Lemma axes_row_step c k (l : Batch) a :
  (k < c)%nat → l !! k = Some a →
  <[k := Some a]> (axes_row c k l) = axes_row c (S k) l.
Proof.
  intros Hk Ea. pose proof (lookup_lt_Some _ _ _ Ea) as Hlen.
  unfold axes_row. rewrite (take_S_r _ _ _ Ea), fmap_app. simpl.
  replace (c - k)%nat with (S (c - S k)) by lia. simpl.
  rewrite insert_app_r_alt by (rewrite length_fmap, length_take; lia).
  rewrite length_fmap, length_take. replace (k - k `min` length l)%nat with 0%nat by lia.
  simpl. now rewrite <- app_assoc.
Qed.

Lemma imshow_run axs row col cells img w :
  axs !! row = Some cells → (col < length cells)%nat →
  plt.imshow axs row col img w = Ok (<[row := <[col := Some img]> cells]> axs) w.
Proof.
  intros E Hc. unfold plt.imshow. rewrite E. now rewrite decide_True by done.
Qed.

Lemma index_Some {A} (xs : list A) i x w : xs !! i = Some x → index xs i w = Ok x w.
Proof. intros E. unfold index. now rewrite E. Qed.

Lemma show_body_run (A B G : Batch) c k a b g w :
  (k < c)%nat → A !! k = Some a → B !! k = Some b → G !! k = Some g →
  show_body A B G [axes_row c k A; axes_row c k B; axes_row c k G] k w
  = Ok [axes_row c (S k) A; axes_row c (S k) B; axes_row c (S k) G] w.
Proof.
  intros Hk Ea Eb Eg. unfold show_body.
  pose proof (lookup_lt_Some _ _ _ Ea). pose proof (lookup_lt_Some _ _ _ Eb).
  pose proof (lookup_lt_Some _ _ _ Eg).
  set (rA := axes_row c k A). set (rB := axes_row c k B). set (rG := axes_row c k G).
  assert (LA : (k < length rA)%nat) by (unfold rA; rewrite axes_row_length; lia).
  assert (LB : (k < length rB)%nat) by (unfold rB; rewrite axes_row_length; lia).
  assert (LG : (k < length rG)%nat) by (unfold rG; rewrite axes_row_length; lia).
  assert (E1 : plt.imshow [rA; rB; rG] 0 k a w = Ok [<[k := Some a]> rA; rB; rG] w)
    by exact (imshow_run [rA; rB; rG] 0 k rA a w eq_refl LA).
  assert (E2 : plt.imshow [<[k := Some a]> rA; rB; rG] 1 k b w
               = Ok [<[k := Some a]> rA; <[k := Some b]> rB; rG] w)
    by exact (imshow_run [<[k := Some a]> rA; rB; rG] 1 k rB b w eq_refl LB).
  assert (E3 : plt.imshow [<[k := Some a]> rA; <[k := Some b]> rB; rG] 2 k g w
               = Ok [<[k := Some a]> rA; <[k := Some b]> rB; <[k := Some g]> rG] w)
    by exact (imshow_run [<[k := Some a]> rA; <[k := Some b]> rB; rG] 2 k rG g w eq_refl LG).
  rewrite (bind_Ok _ _ _ _ _ (index_Some _ _ _ _ Ea)).
  rewrite (bind_Ok _ _ _ _ _ E1).
  rewrite (bind_Ok _ _ _ _ _ (index_Some _ _ _ _ Eb)).
  rewrite (bind_Ok _ _ _ _ _ E2).
  rewrite (bind_Ok _ _ _ _ _ (index_Some _ _ _ _ Eg)).
  rewrite E3. unfold rA, rB, rG.
  now rewrite !axes_row_step by (done || lia).
Qed.

Lemma show_loop (A B G : Batch) c w :
  (c <= length A)%nat → (c <= length B)%nat → (c <= length G)%nat →
  ∀ m k, (k + m = c)%nat →
    npx.foldM (show_body A B G) (seq k m)
      [axes_row c k A; axes_row c k B; axes_row c k G] w
    = Ok [axes_row c c A; axes_row c c B; axes_row c c G] w.
Proof.
  intros HA HB HG. induction m as [|m IH]; intros k Hk.
  - simpl. replace k with c by lia. reflexivity.
  - destruct (lookup_lt_is_Some_2 A k) as [a Ea]; [lia|].
    destruct (lookup_lt_is_Some_2 B k) as [b Eb]; [lia|].
    destruct (lookup_lt_is_Some_2 G k) as [g Eg]; [lia|].
    cbn [npx.foldM seq].
    rewrite (bind_Ok _ _ _ _ _ (show_body_run A B G c k a b g w ltac:(lia) Ea Eb Eg)).
    apply IH. lia.
Qed.

Lemma axes_row_0 c l : axes_row c 0 l = replicate c None.
Proof. unfold axes_row. simpl. now rewrite Nat.sub_0_r. Qed.

Lemma axes_row_full c l : axes_row c c l = Some <$> take c l.
Proof. unfold axes_row. rewrite Nat.sub_diag. simpl. apply app_nil_r. Qed.

Lemma display_length x : length (display x) = length x.
Proof. unfold display, npx.map4. apply length_map. Qed.

Lemma save_imgs_run `{Backend} self epoch l (imgs : Batch) w :
  heap w !! l = Some (Arr4 imgs) →
  (6 <= length imgs)%nat →
  mask_height self < img_rows self → mask_width self < img_rows self →
  ∃ w' gen_imgs,
    save_imgs self epoch l w = Ok tt w' ∧
    generated self (keras w) (masked self (rng w) imgs) gen_imgs ∧
    length gen_imgs = length imgs ∧
    log w' = log w ++
      [EvPredict generator (masked self (rng w) imgs);
       EvWriteFile (grid_path epoch)
         (Figure (sample_grid imgs (masked self (rng w) imgs) gen_imgs))] ∧
    keras w' = keras w.
Proof.
  intros Hl Hlen Hh Hw.
  destruct (mask_randomly_run self l imgs w Hl) as (w1 & E1 & Hm & Hfr & _ & _ & Ek1 & Elog1);
    [right; done|].
  set (mk := masked self (rng w) imgs) in *.
  destruct (predict_generator self mk w1) as (gen & Eg & Hgen & Hgl).
  assert (Hml : length mk = length imgs)
    by (unfold mk, masked, corners, mask_with; now rewrite length_imap).
  exists (logged [EvWriteFile (grid_path epoch) (Figure (sample_grid imgs mk gen))]
            (logged [EvPredict generator mk] w1)), gen.
  split; [|split; [now rewrite <- Ek1|split; [lia|split]]].
  - unfold save_imgs.
    rewrite (bind_Ok _ _ _ _ _ E1).
    rewrite (bind_Ok _ _ _ _ _ (load4_run _ _ _ Hm)).
    rewrite (bind_Ok _ _ _ _ _ Eg).
    assert (Hl1 : heap (logged [EvPredict generator mk] w1) !! l = Some (Arr4 imgs)).
    { simpl. rewrite Hfr by (eapply elem_of_dom_2; eauto). exact Hl. }
    rewrite (bind_Ok _ _ _ _ _ (load4_run _ _ _ Hl1)).
    change (npx.foldM ?f (seq 0 6) (plt.subplots 3 6))
      with (npx.foldM (show_body (display imgs) (display mk) (display gen)) (seq 0 6)
              [replicate 6 None; replicate 6 None; replicate 6 None]).
    pose proof (show_loop (display imgs) (display mk) (display gen) 6
                  (logged [EvPredict generator mk] w1)
                  ltac:(rewrite display_length; lia) ltac:(rewrite display_length; lia)
                  ltac:(rewrite display_length; lia) 6%nat 0%nat eq_refl) as Hloop.
    rewrite !axes_row_0, !axes_row_full in Hloop.
    rewrite (bind_Ok _ _ _ _ _ Hloop).
    reflexivity.
  - simpl. rewrite Elog1, <- app_assoc. reflexivity.
  - simpl. exact Ek1.
Qed.




Lemma concat_Forall {A} (P : A → Prop) (m : list (list A)) :
  Forall (Forall P) m → Forall P (concat m).
Proof. induction 1; simpl; [constructor|]. now apply Forall_app. Qed.

Lemma masked_length self r imgs : length (masked self r imgs) = length imgs.
Proof. unfold masked, corners, mask_with. now rewrite length_imap. Qed.

Lemma ready_trained `{Backend} m c x y cw k : ready k → ready (trained_keras m c x y cw k).
Proof. intros Hk. exact Hk. Qed.


Lemma sample_run (X : Batch) size w :
  X ≠ [] → 0 < size →
  let idx := reduced (rng w) 0 (Z.of_nat (length X)) (Z.to_nat size) in
  (idx <- np.randint 0 (Z.of_nat (length X)) size ;; npx.take X idx) w
    = Ok (pick [] X idx) (advance (Z.to_nat size) w) ∧
  Forall (fun i => 0 <= i < Z.of_nat (length X)) idx ∧
  length idx = Z.to_nat size.
Proof.
  intros HX Hs idx.
  assert (HN : 0 < Z.of_nat (length X)) by (destruct X; [done|simpl; lia]).
  assert (Hb : Forall (fun i => 0 <= i < Z.of_nat (length X)) idx)
    by (apply reduced_bounds, HN).
  split; [|split; [exact Hb|apply reduced_length]].
  rewrite (bind_Ok _ _ _ _ _ (randint_sample _ _ w HN Hs)).
  now apply take_run.
Qed.










Lemma cat_and_dog_ok :
  well_formed cat_and_dog ∧ balanced cat_and_dog ∧ train_set cat_and_dog ≠ [].
Proof.
  split; [|split].
  - unfold well_formed, cat_and_dog. simpl. repeat split; repeat constructor.
  - reflexivity.
  - discriminate.
Qed.


Lemma init_run `{Backend} w :
  ∃ w', __init__ w = Ok attributes w' ∧
        log w' = log w ++ init_events ∧
        ready (keras w') ∧
        g_weights (keras w') = initializer G ∧
        d_weights (keras w') = initializer D ∧
        rng w' = rng w ∧ heap w' = heap w ∧ garbage w' = garbage w.
Proof. apply construct_run. Qed.



Lemma frozen_refl w : frozen w w.
Proof. unfold frozen. repeat split; try reflexivity. exists []. now rewrite app_nil_r. Qed.

Lemma frozen_trans w1 w2 w3 : frozen w1 w2 → frozen w2 w3 → frozen w1 w3.
Proof.
  intros (A1 & A2 & A3 & A4 & A5 & es1 & L1 & Q1) (B1 & B2 & B3 & B4 & B5 & es2 & L2 & Q2).
  unfold frozen. repeat split; try congruence.
  exists (es1 ++ es2). split; [now rewrite L2, L1, app_assoc|now apply Forall_app].
Qed.

Lemma frozen_env w w' : keras w' = keras w → log w' = log w → frozen w w'.
Proof.
  intros Ek El. unfold frozen. rewrite Ek. repeat split; try reflexivity.
  exists []. now rewrite app_nil_r.
Qed.

Lemma keeps_ret {A} (a : A) : keeps (ret a).
Proof. intros w. apply frozen_refl. Qed.

Lemma keeps_raise {A} e : keeps (@raise A e).
Proof. intros w. apply frozen_refl. Qed.

Lemma keeps_bind {A B} (m : M A) (k : A → M B) :
  keeps m → (∀ a, keeps (k a)) → keeps (bind m k).
Proof.
  intros Hm Hk w. unfold bind. specialize (Hm w).
  destruct (m w) as [a w1|e w1]; simpl in *; [|exact Hm].
  eapply frozen_trans; [exact Hm|apply Hk].
Qed.

Lemma keeps_for_each {A} (xs : list A) body :
  (∀ x, keeps (body x)) → keeps (for_each xs body).
Proof.
  intros Hb. induction xs as [|x xs IH]; simpl; [apply keeps_ret|].
  apply keeps_bind; [apply Hb|intros _; exact IH].
Qed.

Lemma keeps_mapM {A B} (f : A → M B) xs : (∀ x, keeps (f x)) → keeps (npx.mapM f xs).
Proof.
  intros Hf. induction xs as [|x xs IH]; simpl; [apply keeps_ret|].
  apply keeps_bind; [apply Hf|intros y].
  apply keeps_bind; [exact IH|intros ys; apply keeps_ret].
Qed.

Lemma keeps_foldM {A S} (f : S → A → M S) xs :
  (∀ s x, keeps (f s x)) → ∀ s, keeps (npx.foldM f xs s).
Proof.
  intros Hf. induction xs as [|x xs IH]; intros s; simpl; [apply keeps_ret|].
  apply keeps_bind; [apply Hf|intros s'; apply IH].
Qed.

Lemma keeps_emit e : quiet e → keeps (emit e).
Proof.
  intros Hq w. unfold frozen. simpl. repeat split; try reflexivity.
  exists [e]. split; [reflexivity|]. now constructor.
Qed.

Lemma keeps_get_keras : keeps get_keras.
Proof. intros w. apply frozen_refl. Qed.

Lemma keeps_index {A} (xs : list A) i : keeps (index xs i).
Proof. unfold index. destruct (xs !! i); [apply keeps_ret|apply keeps_raise]. Qed.

Lemma keeps_randint low high size : keeps (np.randint low high size).
Proof.
  intros w. unfold np.randint.
  destruct (size <? 0); [apply frozen_refl|].
  destruct (size =? 0); [apply frozen_refl|].
  destruct (high <=? low); [apply frozen_refl|]. now apply frozen_env.
Qed.

Lemma keeps_store l a : keeps (np.store l a).
Proof. intros w. now apply frozen_env. Qed.

Lemma keeps_load l : keeps (np.load l).
Proof. intros w. unfold np.load. destruct (heap w !! l); apply frozen_refl. Qed.

Create HintDb keeps.
#[local] Hint Resolve keeps_ret keeps_raise keeps_get_keras keeps_index keeps_randint
  keeps_store keeps_load : keeps.

Ltac keeps_step :=
  lazymatch goal with
  | |- ∀ _, _ => intros ?
  | |- keeps (bind _ _) => apply keeps_bind; [|intros ?]
  | |- keeps (for_each _ _) => apply keeps_for_each; intros ?
  | |- keeps (npx.mapM _ _) => apply keeps_mapM; intros ?
  | |- keeps (npx.foldM _ _ _) => apply keeps_foldM; intros ? ?
  | |- keeps (if ?b then _ else _) => destruct b
  | |- keeps (match ?x with _ => _ end) => destruct x
  | |- keeps (emit _) => apply keeps_emit; exact I
  | |- keeps _ => solve [auto with keeps]
  end.

Ltac keeps_auto := repeat keeps_step.

Lemma keeps_alloc a : keeps (np.alloc a).
Proof. intros w. unfold np.alloc. apply (keeps_bind (np.store _ a) _); keeps_auto. Qed.

Lemma keeps_load4 l : keeps (np.load4 l).
Proof. unfold np.load4. keeps_auto. Qed.

Lemma keeps_load3 l : keeps (np.load3 l).
Proof. unfold np.load3. keeps_auto. Qed.

#[local] Hint Resolve keeps_alloc keeps_load4 keeps_load3 : keeps.

Lemma keeps_shape0 l : keeps (np.shape0 l).
Proof. unfold np.shape0. keeps_auto. Qed.

Lemma keeps_empty_like l : keeps (np.empty_like l).
Proof.
  intros w. unfold np.empty_like.
  apply (keeps_bind (np.load4 l) _); keeps_auto.
Qed.

Lemma keeps_getitem l i : keeps (np.getitem l i).
Proof. unfold np.getitem. keeps_auto. Qed.

Lemma keeps_copy img : keeps (np.copy img).
Proof. unfold np.copy. keeps_auto. Qed.

Lemma keeps_setitem_rect l y1 y2 x1 x2 v : keeps (np.setitem_rect l y1 y2 x1 x2 v).
Proof. unfold np.setitem_rect. keeps_auto. Qed.

Lemma keeps_setitem l i src : keeps (np.setitem l i src).
Proof. unfold np.setitem. keeps_auto. Qed.

#[local] Hint Resolve keeps_shape0 keeps_empty_like keeps_getitem keeps_copy
  keeps_setitem_rect keeps_setitem : keeps.

Lemma keeps_draw_offsets self n : keeps (draw_offsets self n).
Proof. unfold draw_offsets. keeps_auto. Qed.

#[local] Hint Resolve keeps_draw_offsets : keeps.

Lemma keeps_mask_randomly self imgs : keeps (mask_randomly self imgs).
Proof. unfold mask_randomly. keeps_auto. Qed.

Lemma keeps_item {A} (a : list A) i : keeps (npx.item a i).
Proof. unfold npx.item. keeps_auto. Qed.

#[local] Hint Resolve keeps_mask_randomly keeps_item : keeps.

Lemma keeps_take {A} (a : list A) idx : keeps (npx.take a idx).
Proof. unfold npx.take. keeps_auto. Qed.

Lemma keeps_full {A} n (v : A) : keeps (npx.full n v).
Proof. unfold npx.full. keeps_auto. Qed.

Lemma keeps_to_categorical y n : keeps (npx.to_categorical y n).
Proof. unfold npx.to_categorical. keeps_auto. Qed.

Lemma keeps_true_div a b : keeps (npx.true_div a b).
Proof. unfold npx.true_div. keeps_auto. Qed.

Lemma keeps_py_mod a b : keeps (npx.py_mod a b).
Proof. unfold npx.py_mod. keeps_auto. Qed.

Lemma keeps_vstack2 {A} (a b : list (list A)) : keeps (npx.vstack2 a b).
Proof. unfold npx.vstack2. keeps_auto. Qed.

Lemma keeps_vstack1 {A} (a b : list A) : keeps (npx.vstack1 a b).
Proof. unfold npx.vstack1. keeps_auto. Qed.

Lemma keeps_mask_rows {A} (a : list A) mask : keeps (npx.mask_rows a mask).
Proof. unfold npx.mask_rows. keeps_auto. Qed.

Lemma keeps_imshow axs row col img : keeps (plt.imshow axs row col img).
Proof. unfold plt.imshow. keeps_auto. Qed.

Lemma keeps_predict ls x : keeps (Model.predict ls x).
Proof. unfold Model.predict. keeps_auto. Qed.

Lemma keeps_train_on_batch `{Backend} m x y cw : keeps (Model.train_on_batch m x y cw).
Proof.
  intros w. unfold Model.train_on_batch, get_keras, bind.
  destruct (Model.get_compiled m (keras w)); simpl; [|apply frozen_refl].
  unfold frozen. simpl. repeat split; try reflexivity.
  eexists. split; [reflexivity|]. now repeat constructor.
Qed.

#[local] Hint Resolve keeps_take keeps_full keeps_to_categorical keeps_true_div keeps_py_mod
  keeps_vstack2 keeps_vstack1 keeps_mask_rows keeps_imshow keeps_predict
  keeps_train_on_batch : keeps.

Lemma keeps_load_data data : keeps (load_data data).
Proof. unfold load_data. destruct data as [[? ?] [? ?]]. keeps_auto. Qed.

Lemma keeps_class_weights self bs : keeps (class_weights self bs).
Proof. unfold class_weights. keeps_auto. Qed.

Lemma keeps_save_imgs `{Backend} self epoch imgs : keeps (save_imgs self epoch imgs).
Proof. unfold save_imgs. keeps_auto. Qed.

Lemma keeps_save_model `{Backend} self : keeps (save_model self).
Proof. unfold save_model. keeps_auto. Qed.

#[local] Hint Resolve keeps_load_data keeps_class_weights keeps_save_imgs keeps_save_model
  : keeps.

Lemma keeps_train_epoch `{Backend} self X y bs hb si cw epoch :
  keeps (train_epoch self X y bs hb si cw epoch).
Proof. unfold train_epoch. keeps_auto. Qed.

#[local] Hint Resolve keeps_train_epoch : keeps.

Lemma keeps_train `{Backend} self data epochs bs si : keeps (train self data epochs bs si).
Proof. unfold train. keeps_auto. Qed.

Lemma train_on_batch_discriminator `{Backend} w x y cw :
  ready (keras w) →
  ∃ r w', Model.train_on_batch discriminator x y cw w = Ok r w' ∧
          d_weights (keras w') =
            adam discriminator d_args D (g_weights (keras w)) (d_weights (keras w)) x y cw ∧
          g_weights (keras w') = g_weights (keras w) ∧
          ready (keras w').
Proof.
  intros Hk. pose proof Hk as (_ & _ & Ecd & _).
  eexists _, _. split; [apply train_on_batch_run; exact Ecd|].
  split; [reflexivity|]. split; [reflexivity|exact Hk].
Qed.

Lemma train_on_batch_combined `{Backend} w x y cw :
  ready (keras w) →
  ∃ r w', Model.train_on_batch combined x y cw w = Ok r w' ∧
          d_weights (keras w') = d_weights (keras w) ∧
          g_weights (keras w') =
            adam combined c_args G (g_weights (keras w)) (d_weights (keras w)) x y cw ∧
          ready (keras w').
Proof.
  intros Hk. pose proof Hk as (_ & _ & _ & _ & Ecc).
  eexists _, _. split; [apply train_on_batch_run; exact Ecc|].
  split; [reflexivity|]. split; [reflexivity|exact Hk].
Qed.

(** C3. In [__init__] the discriminator is compiled, then its
    [trainable] flag is set to [False], then the combined model is
    compiled; so the discriminator's compile collected its weights and
    the combined model's collected the generator's only.  No run of
    [train], whether it returns or raises, sets a flag or compiles again.
    Hence, in every state with these flags and compiled models, a
    [train_on_batch] of the discriminator steps the discriminator's
    weights and leaves the generator's, and a [train_on_batch] of the
    combined model steps the generator's and leaves the
    discriminator's. *)
Theorem discriminator_frozen_in_combined `{Backend} (w0 : World) :
  ∃ w1 a_d a_g a_c,
    __init__ w0 = Ok attributes w1 ∧
    log w1 = log w0 ++
      [EvBuild discriminator; EvCompile discriminator a_d;
       EvBuild generator; EvCompile generator a_g;
       EvSetTrainable discriminator false;
       EvBuild combined; EvCompile combined a_c] ∧
    d_trainable (keras w1) = false ∧
    compiled_d (keras w1) = Some {| args := a_d; collected := [D] |} ∧
    compiled_c (keras w1) = Some {| args := a_c; collected := [G] |} ∧
    (∀ data epochs batch_size save_interval,
       let w2 := final (train attributes data epochs batch_size save_interval w1) in
       d_trainable (keras w2) = false ∧
       compiled_d (keras w2) = compiled_d (keras w1) ∧
       compiled_c (keras w2) = compiled_c (keras w1) ∧
       ∃ es, log w2 = log w1 ++ es ∧ Forall quiet es) ∧
    (∀ w x y cw,
       d_trainable (keras w) = d_trainable (keras w1) →
       g_trainable (keras w) = g_trainable (keras w1) →
       compiled_d (keras w) = compiled_d (keras w1) →
       compiled_g (keras w) = compiled_g (keras w1) →
       compiled_c (keras w) = compiled_c (keras w1) →
       (∃ r w', Model.train_on_batch discriminator x y cw w = Ok r w' ∧
                d_weights (keras w') =
                  adam discriminator a_d D (g_weights (keras w)) (d_weights (keras w)) x y cw ∧
                g_weights (keras w') = g_weights (keras w)) ∧
       (∃ r w', Model.train_on_batch combined x y cw w = Ok r w' ∧
                d_weights (keras w') = d_weights (keras w) ∧
                g_weights (keras w') =
                  adam combined a_c G (g_weights (keras w)) (d_weights (keras w)) x y cw)).
Proof.
  destruct (init_run w0) as (w1 & E1 & Elog & Hk & _).
  pose proof Hk as (Hgt & Hdt & Ecd & Ecg & Ecc).
  exists w1, d_args, g_args, c_args.
  split; [exact E1|]. split; [exact Elog|]. split; [exact Hdt|].
  split; [exact Ecd|]. split; [exact Ecc|]. split.
  - intros data epochs bs si w2.
    destruct (keeps_train attributes data epochs bs si w1) as (F1 & _ & F3 & _ & F5 & Hes).
    fold w2 in F1, F3, F5, Hes. split; [congruence|]. split; [exact F3|]. split; [exact F5|].
    exact Hes.
  - intros w x y cw Q1 Q2 Q3 Q4 Q5.
    assert (Hw : ready (keras w)) by (unfold ready; repeat split; congruence).
    split.
    + destruct (train_on_batch_discriminator w x y cw Hw) as (r & w' & E & Hd & Hg & _).
      eauto 10.
    + destruct (train_on_batch_combined w x y cw Hw) as (r & w' & E & Hd & Hg & _).
      eauto 10.
Qed.

Lemma in_slice_inside len a b k :
  0 <= a → 0 <= b → (k < len)%nat →
  np.in_slice len a b k = (a <=? Z.of_nat k) && (Z.of_nat k <? b).
Proof.
  intros Ha Hb Hk. unfold np.in_slice, np.adjust.
  destruct (Z.ltb_spec a 0); [lia|]. destruct (Z.ltb_spec b 0); [lia|].
  destruct (Z.leb_spec (Z.min a (Z.of_nat len)) (Z.of_nat k)),
           (Z.leb_spec a (Z.of_nat k)); try lia;
  destruct (Z.ltb_spec (Z.of_nat k) (Z.min b (Z.of_nat len))),
           (Z.ltb_spec (Z.of_nat k) b); try lia; reflexivity.
Qed.

Lemma px_assign_rect_clipped img h w c y1 y2 x1 x2 v y x ch :
  image_shape h w c img →
  0 <= y1 → 0 <= y2 → 0 <= x1 → 0 <= x2 →
  px (np.assign_rect img y1 y2 x1 x2 v) y x ch =
    if in_rect y1 y2 x1 x2 y x then (fun _ => v) <$> px img y x ch else px img y x ch.
Proof.
  intros Hs Hy1 Hy2 Hx1 Hx2. unfold px, np.assign_rect, in_rect.
  rewrite list_lookup_imap.
  destruct (img !! y) as [row|] eqn:Ey; simpl.
  2: { now destruct (_ && _). }
  pose proof (lookup_lt_Some _ _ _ Ey) as Hy.
  rewrite (image_shape_hd _ _ _ _ _ _ Hs Ey).
  rewrite (in_slice_inside (length img)) by done.
  destruct ((y1 <=? Z.of_nat y) && (Z.of_nat y <? y2)); simpl; [|reflexivity].
  rewrite list_lookup_imap.
  destruct (row !! x) as [p|] eqn:Ex; simpl.
  2: { now destruct (_ && _). }
  pose proof (lookup_lt_Some _ _ _ Ex) as Hx.
  destruct Hs as [_ HF]. pose proof (Forall_lookup_1 _ _ _ _ HF Ey) as [Hw _].
  rewrite (in_slice_inside w) by (done || lia).
  destruct ((x1 <=? Z.of_nat x) && (Z.of_nat x <? x2)); simpl; [|reflexivity].
  now rewrite list_lookup_fmap.
Qed.

Lemma assign_rect_outside img h w c y1 y2 x1 x2 v :
  image_shape h w c img →
  0 <= y1 → 0 <= y2 → 0 <= x1 → 0 <= x2 →
  Z.of_nat h <= y1 ∨ Z.of_nat w <= x1 →
  np.assign_rect img y1 y2 x1 x2 v = img.
Proof.
  intros Hs Hy1 Hy2 Hx1 Hx2 Hout. unfold np.assign_rect.
  apply list_eq. intros i. rewrite list_lookup_imap.
  destruct (img !! i) as [row|] eqn:Ei; simpl; [|reflexivity].
  pose proof (lookup_lt_Some _ _ _ Ei) as Hi.
  rewrite (image_shape_hd _ _ _ _ _ _ Hs Ei).
  rewrite (in_slice_inside (length img)) by done.
  destruct Hs as [Hl HF]. pose proof (Forall_lookup_1 _ _ _ _ HF Ei) as [Hw _].
  destruct ((y1 <=? Z.of_nat i) && (Z.of_nat i <? y2)) eqn:Ein; [|reflexivity].
  f_equal. apply list_eq. intros j. rewrite list_lookup_imap.
  destruct (row !! j) as [p|] eqn:Ej; simpl; [|reflexivity].
  pose proof (lookup_lt_Some _ _ _ Ej) as Hj.
  rewrite (in_slice_inside w) by (done || lia).
  apply andb_prop in Ein as [E1 _]. apply Z.leb_le in E1.
  destruct Hout as [Ho|Ho]; [lia|].
  destruct (Z.leb_spec x1 (Z.of_nat j)); [lia|reflexivity].
Qed.

(** X1. Whatever the size of the images of the batch, configured or
    not, [mask_randomly] does not fail on it: in every image the pixels
    that lie in the drawn rectangle are 0 and all the others are the
    input's.  On images smaller than [img_rows] the rectangle is clipped
    by the image, and an image the corner falls outside of comes back
    unchanged. *)
Theorem mask_randomly_clips
    (self : CCGAN) (w : World) (l : loc) (imgs : Batch) (n h wd c : nat) :
  heap w !! l = Some (Arr4 imgs) →
  batch_shape n h wd c imgs →
  0 <= mask_height self < img_rows self →
  0 <= mask_width self < img_rows self →
  ∃ l' w' out,
    mask_randomly self l w = Ok l' w' ∧
    heap w' !! l' = Some (Arr4 out) ∧
    batch_shape n h wd c out ∧
    ∀ i img, imgs !! i = Some img →
      let y1 := rng w i mod (img_rows self - mask_height self) in
      let x1 := rng w (n + i)%nat mod (img_rows self - mask_width self) in
      ∃ out_img,
        out !! i = Some out_img ∧
        (∀ y x ch v, px img y x ch = Some v →
           px out_img y x ch =
             Some (if in_rect y1 (y1 + mask_height self) x1 (x1 + mask_width self) y x
                   then 0%R else v)) ∧
        (Z.of_nat h <= y1 ∨ Z.of_nat wd <= x1 → out_img = img).
Proof.
  intros Hl [Hn HF] Hmh Hmw.
  destruct (mask_randomly_run self l imgs w Hl) as (w' & E & Hout & _); [right; lia|].
  exists (fresh (dom (heap w))), w', (masked self (rng w) imgs).
  split; [exact E|]. split; [exact Hout|].
  assert (Hlk : ∀ i img, imgs !! i = Some img →
            masked self (rng w) imgs !! i =
            Some (np.assign_rect img
                    (rng w i mod (img_rows self - mask_height self))
                    (rng w i mod (img_rows self - mask_height self) + mask_height self)
                    (rng w (n + i)%nat mod (img_rows self - mask_width self))
                    (rng w (n + i)%nat mod (img_rows self - mask_width self) + mask_width self)
                    0%R)).
  { intros i img Ei. rewrite (masked_lookup _ _ _ _ _ Ei). now rewrite Hn. }
  split.
  - split; [now rewrite masked_length|].
    apply Forall_lookup. intros i out_img Ei.
    destruct (imgs !! i) as [img|] eqn:Eimg.
    + rewrite (Hlk _ _ Eimg) in Ei. injection Ei as <-.
      apply image_shape_assign_rect. eapply Forall_lookup_1; eauto.
    + apply lookup_ge_None in Eimg. apply lookup_lt_Some in Ei.
      rewrite masked_length in Ei. lia.
  - intros i img Ei y1 x1.
    pose proof (mod_range (rng w i) (img_rows self - mask_height self) ltac:(lia)).
    pose proof (mod_range (rng w (n + i)%nat) (img_rows self - mask_width self) ltac:(lia)).
    pose proof (Forall_lookup_1 _ _ _ _ HF Ei) as Hs.
    eexists. split; [exact (Hlk _ _ Ei)|]. fold y1 x1 in H, H0 |- *. split.
    + intros y x ch v Hpx.
      rewrite (px_assign_rect_clipped _ h wd c) by (done || lia).
      rewrite Hpx. now destruct (in_rect _ _ _ _ _ _).
    + intros Ho. apply (assign_rect_outside _ h wd c); (done || lia).
Qed.

(** X1 on a batch of one 16 x 16 image: the first draw puts the corner
    at row 20, below the image. *)
Lemma mask_randomly_clips_witness :
  ∃ l' w',
    mask_randomly attributes 0%nat (world_with (fun _ => 20) (constant_batch 1 16 16 3 1%R))
      = Ok l' w' ∧
    heap w' !! l' = Some (Arr4 (constant_batch 1 16 16 3 1%R)).
Proof.
  destruct (mask_randomly_clips attributes
              (world_with (fun _ => 20) (constant_batch 1 16 16 3 1%R)) 0%nat
              (constant_batch 1 16 16 3 1%R) 1 16 16 3)
    as (l' & w' & out & E & Hout & [Hlen _] & Hpix).
  - reflexivity.
  - apply constant_batch_shape.
  - simpl. lia.
  - simpl. lia.
  - exists l', w'. split; [exact E|]. rewrite Hout. f_equal. f_equal.
    destruct (Hpix 0%nat (replicate 16 (replicate 16 (replicate 3 1%R))) eq_refl)
      as (o & Eo & _ & Hsame).
    destruct out as [|o' [|? ?]]; try discriminate Hlen.
    injection Eo as ->. rewrite Hsame; [reflexivity|]. left.
    apply Z.leb_le. reflexivity.
Defined.

(** X2. [mask_randomly] only reads its input, creates arrays and draws:
    on an empty batch (whatever the mask) or with a mask smaller than
    the row count, it returns a newly created array, leaves every array
    that existed as it was, consumes exactly two raw draws per image,
    and neither logs a call nor touches the Keras session. *)
Theorem mask_randomly_effects (self : CCGAN) (w : World) (l : loc) (imgs : Batch) :
  heap w !! l = Some (Arr4 imgs) →
  imgs = [] ∨ (mask_height self < img_rows self ∧ mask_width self < img_rows self) →
  ∃ l' w',
    mask_randomly self l w = Ok l' w' ∧
    (l' ∉ dom (heap w)) ∧
    (∃ out, heap w' !! l' = Some (Arr4 out) ∧ length out = length imgs) ∧
    (∀ l0, l0 ∈ dom (heap w) → heap w' !! l0 = heap w !! l0) ∧
    (∀ i, rng w' i = rng w (2 * length imgs + i)%nat) ∧
    keras w' = keras w ∧ log w' = log w.
Proof.
  intros Hl Hok.
  destruct (mask_randomly_run self l imgs w Hl Hok) as (w' & E & Hout & Hfr & Er & _ & Ek & El).
  exists (fresh (dom (heap w))), w'. split; [exact E|]. split; [apply is_fresh|].
  split; [eexists; split; [exact Hout|apply masked_length]|].
  split; [exact Hfr|]. split; [|done].
  intros i. rewrite Er. f_equal. lia.
Qed.

(** X2 on the empty batch, for a mask that is too large. *)
Lemma mask_randomly_effects_witness :
  ∃ l' w', mask_randomly tall_mask 0%nat (world_with (fun _ => 0) []) = Ok l' w' ∧
           heap w' !! l' = Some (Arr4 []).
Proof.
  destruct (mask_randomly_effects tall_mask (world_with (fun _ => 0) []) 0%nat [])
    as (l' & w' & E & _ & (out & Eo & Hlen) & _).
  - reflexivity.
  - left. reflexivity.
  - exists l', w'. split; [exact E|]. destruct out; [exact Eo|discriminate Hlen].
Defined.

Lemma load_data_unbalanced_run (data : Dataset) (w : World) :
  well_formed data → ¬ balanced data →
  load_data data w = Raise ValueError w.
Proof.
  destruct data as [[Xtr ytr] [Xte yte]]. unfold well_formed, balanced, samples. simpl.
  intros (L1 & L2 & Hrows) Hbal.
  set (X := Xtr ++ Xte) in *. set (L := concat (ytr ++ yte)) in *.
  assert (HL : length X = length L).
  { unfold X, L. rewrite concat_singletons by done. rewrite !length_app. lia. }
  assert (Ey : npx.vstack2 ytr yte w = Ok (ytr ++ yte) w).
  { unfold npx.vstack2. destruct ytr as [|ra ytr']; [done|].
    destruct yte as [|rb yte']; [done|].
    rewrite decide_True; [done|].
    apply Forall_app in Hrows as [Ha Hb].
    apply Forall_cons in Ha as [-> _]. now apply Forall_cons in Hb as [-> _]. }
  unfold load_data.
  rewrite (bind_Ok _ _ _ _ _ Ey).
  rewrite !flatten_eq_scalar. fold L. fold X.
  rewrite (bind_Ok _ _ _ _ _ (mask_rows_with_label X L 3 w HL)).
  rewrite (bind_Ok _ _ _ _ _ (mask_rows_with_label X L 5 w HL)).
  unfold npx.vstack1.
  rewrite decide_False
    by (rewrite !(select_eq_length X) by done; fold L; done).
  reflexivity.
Qed.

Lemma class_weights_zero (self : CCGAN) (batch_size : Z) (w : World) :
  -1 <= batch_size <= 1 →
  class_weights self batch_size w = Raise ZeroDivisionError w.
Proof.
  intros Hb. unfold class_weights.
  assert (E : Z.quot batch_size 2 = 0) by (apply Z.quot_small_iff; lia).
  rewrite E. destruct (npx.range (num_classes self)); reflexivity.
Qed.

(** X3. On a dataset with different numbers of samples labelled 3 and
    labelled 5, stacking the two label vectors fails: the preprocessing
    raises [ValueError], and so does [train], before any random draw,
    library call or file write. *)
Theorem train_unbalanced_raises `{Backend}
    (self : CCGAN) (data : Dataset) (epochs batch_size save_interval : Z) (w : World) :
  well_formed data →
  ¬ balanced data →
  load_data data w = Raise ValueError w ∧
  train self data epochs batch_size save_interval w = Raise ValueError w.
Proof.
  intros Hwf Hbal.
  pose proof (load_data_unbalanced_run data w Hwf Hbal) as E.
  split; [exact E|]. unfold train. now rewrite (bind_Raise _ _ _ _ _ E).
Qed.

(** X3 on one cat and no dog. *)
Lemma train_unbalanced_raises_witness :
  train (H := idle_backend) attributes one_cat 20000 64 50 (world_ready (fun _ => 0))
    = Raise ValueError (world_ready (fun _ => 0)).
Proof.
  apply (train_unbalanced_raises (H := idle_backend) attributes one_cat 20000 64 50
           (world_ready (fun _ => 0))).
  - unfold well_formed, one_cat. simpl. repeat split; repeat constructor.
  - unfold balanced. simpl. discriminate.
Defined.

(** X4. With [batch_size] -1, 0 or 1 the half batch is 0, and [train]
    raises [ZeroDivisionError] when it computes the class weights: after
    the preprocessing, before the first epoch, with nothing drawn,
    trained or written. *)
Theorem train_batch_size_below_2 `{Backend}
    (self : CCGAN) (data : Dataset) (epochs batch_size save_interval : Z) (w : World) :
  well_formed data →
  balanced data →
  -1 <= batch_size <= 1 →
  train self data epochs batch_size save_interval w = Raise ZeroDivisionError w.
Proof.
  intros Hwf Hbal Hb.
  destruct (load_data_run data w Hwf Hbal) as (X & y & El & _).
  unfold train. rewrite (bind_Ok _ _ _ _ _ El).
  now rewrite (bind_Raise _ _ _ _ _ (class_weights_zero self batch_size w Hb)).
Qed.

(** X4 on a cat and a dog. *)
Lemma train_batch_size_below_2_witness :
  train (H := idle_backend) attributes cat_and_dog 20000 1 50 (world_ready (fun _ => 0))
    = Raise ZeroDivisionError (world_ready (fun _ => 0)).
Proof.
  apply (train_batch_size_below_2 (H := idle_backend) attributes cat_and_dog 20000 1 50
           (world_ready (fun _ => 0))).
  - apply cat_and_dog_ok.
  - apply cat_and_dog_ok.
  - lia.
Defined.

(** X5. With [epochs <= 0] the loop body never runs: [train] returns
    after the preprocessing and the class weights, and has drawn
    nothing, called no model and written no file, even on an empty
    training set. *)
Theorem train_no_epoch `{Backend}
    (self : CCGAN) (data : Dataset) (epochs batch_size save_interval : Z) (w : World) :
  well_formed data →
  balanced data →
  2 <= batch_size →
  epochs <= 0 →
  train self data epochs batch_size save_interval w = Ok tt w.
Proof.
  intros Hwf Hbal Hb He.
  destruct (load_data_run data w Hwf Hbal) as (X & y & El & _).
  destruct (class_weights_run self batch_size w Hb) as (cw1 & cw2 & Ec & _).
  unfold train. rewrite (bind_Ok _ _ _ _ _ El). rewrite (bind_Ok _ _ _ _ _ Ec).
  unfold npx.range. replace (Z.to_nat epochs) with 0%nat by lia. reflexivity.
Qed.

(** X5 on no data, with a save interval of 0. *)
Lemma train_no_epoch_witness :
  train (H := idle_backend) attributes no_data 0 64 0 (world_ready (fun _ => 0))
    = Ok tt (world_ready (fun _ => 0)).
Proof.
  apply (train_no_epoch (H := idle_backend) attributes no_data 0 64 0
           (world_ready (fun _ => 0))).
  - unfold well_formed, no_data. simpl. repeat split; constructor.
  - reflexivity.
  - lia.
  - lia.
Defined.

(** X6. When the dataset holds no cat and no dog, the training set is
    empty and the first epoch's index draw, [randint(0, 0, half_batch)],
    raises [ValueError]: [train] fails in epoch 0 with nothing trained
    or written. *)
Theorem train_empty_set_raises `{Backend}
    (self : CCGAN) (data : Dataset) (epochs batch_size save_interval : Z) (w : World) :
  well_formed data →
  balanced data →
  train_set data = [] →
  2 <= batch_size →
  1 <= epochs →
  train self data epochs batch_size save_interval w = Raise ValueError w.
Proof.
  intros Hwf Hbal HX Hb He.
  destruct (load_data_run data w Hwf Hbal) as (X & y & El & EX & _).
  destruct (class_weights_run self batch_size w Hb) as (cw1 & cw2 & Ec & _).
  fold (train_set data) in EX. rewrite HX in EX. subst X.
  assert (Hhb : 0 < batch_size / 2).
  { pose proof (Z.div_le_mono 2 batch_size 2 ltac:(lia) Hb) as Hd.
    change (2 / 2) with 1 in Hd. lia. }
  unfold train. rewrite (bind_Ok _ _ _ _ _ El). rewrite (bind_Ok _ _ _ _ _ Ec).
  unfold npx.range.
  destruct (Z.to_nat epochs) as [|k] eqn:Ek; [lia|].
  cbn [seq map for_each].
  assert (Er : np.randint 0 (Z.of_nat (length (@nil Image))) (batch_size / 2) w
               = Raise ValueError w).
  { rewrite <- (Z2Nat.id (batch_size / 2)) by lia.
    apply randint_Raise; simpl; lia. }
  assert (Et : train_epoch self [] y batch_size (batch_size / 2) save_interval [cw1; cw2]
                 (Z.of_nat 0) w = Raise ValueError w).
  { unfold train_epoch. now rewrite (bind_Raise _ _ _ _ _ Er). }
  now rewrite (bind_Raise _ _ _ _ _ Et).
Qed.

(** X6 on an aeroplane alone. *)
Lemma train_empty_set_raises_witness :
  train (H := idle_backend) attributes
        (([ [[[1; 2; 3]]] ], [[0]]), ([], [])) 20000 64 50 (world_ready (fun _ => 0))
    = Raise ValueError (world_ready (fun _ => 0)).
Proof.
  apply (train_empty_set_raises (H := idle_backend) attributes
           (([ [[[1; 2; 3]]] ], [[0]]), ([], [])) 20000 64 50 (world_ready (fun _ => 0))).
  - unfold well_formed. simpl. repeat split; repeat constructor.
  - reflexivity.
  - reflexivity.
  - lia.
  - lia.
Defined.



Lemma call_batch_lookup ls ws (xs ys : Batch) i x :
  keras.call_batch ls ws xs = Some ys → xs !! i = Some x →
  ∃ y, ys !! i = Some y ∧ keras.call ls ws x = Some y.
Proof.
  revert ys i. induction xs as [|x0 xs IH]; intros ys i E Ei; [done|].
  simpl in E. destruct (keras.call ls ws x0) as [y0|] eqn:E0; [|done].
  destruct (keras.call_batch ls ws xs) as [ys0|] eqn:E1; [|done].
  simpl in E. injection E as <-. destruct i as [|i]; simpl in *.
  - injection Ei as <-. eauto.
  - eapply IH; eauto.
Qed.

Lemma display_lookup (L : Batch) i img :
  L !! i = Some img →
  display L !! i = Some (map (map (map (fun v => 0.5 * v + 0.5)%R)) img).
Proof. intros E. unfold display, npx.map4. now rewrite list_lookup_fmap, E. Qed.

Lemma shown_lookup (L : Batch) i img :
  (i < 6)%nat → L !! i = Some img →
  (Some <$> take 6 (display L)) !! i =
    Some (Some (map (map (map (fun v => 0.5 * v + 0.5)%R)) img)).
Proof.
  intros Hi E. rewrite list_lookup_fmap, lookup_take_lt by done.
  now rewrite (display_lookup _ _ _ E).
Qed.

Lemma masked_shape self r imgs n h w c :
  batch_shape n h w c imgs → batch_shape n h w c (masked self r imgs).
Proof.
  intros [Hn HF]. split; [now rewrite masked_length|].
  apply Forall_lookup. intros i out Ei.
  destruct (imgs !! i) as [img|] eqn:Eimg.
  - rewrite (masked_lookup _ _ _ _ _ Eimg) in Ei. injection Ei as <-.
    apply image_shape_assign_rect. eapply Forall_lookup_1; eauto.
  - apply lookup_ge_None in Eimg. apply lookup_lt_Some in Ei.
    rewrite masked_length in Ei. lia.
Qed.

(** X8. What the figure of [save_imgs] shows, for a batch of at least
    six 32 x 32 images with values [v]: column [i] holds, from top to
    bottom, image [i] displayed as [0.5 v + 0.5]; the same with the
    masked rectangle at 0.5 (mid-grey, since the mask is 0 on the
    [-1, 1] scale); and a 32 x 32 reconstruction with every value in
    [[0, 1]].  Images after the sixth are not shown. *)
Theorem save_imgs_grid_content `{Backend}
    (self : CCGAN) (epoch : Z) (w : World) (l : loc) (imgs : Batch) (n c : nat) :
  heap w !! l = Some (Arr4 imgs) →
  batch_shape n 32 32 c imgs →
  (6 <= n)%nat →
  0 <= mask_height self < img_rows self →
  0 <= mask_width self < img_rows self →
  ∃ w' axs,
    save_imgs self epoch l w = Ok tt w' ∧
    files_written (log w') = files_written (log w) ++ [(grid_path epoch, Figure axs)] ∧
    Forall (fun row => length row = 6%nat) axs ∧ length axs = 3%nat ∧
    ∀ i img, (i < 6)%nat → imgs !! i = Some img →
      let y1 := rng w i mod (img_rows self - mask_height self) in
      let x1 := rng w (n + i)%nat mod (img_rows self - mask_width self) in
      ∃ a b g,
        axs !! 0%nat ≫= (.!! i) = Some (Some a) ∧
        axs !! 1%nat ≫= (.!! i) = Some (Some b) ∧
        axs !! 2%nat ≫= (.!! i) = Some (Some g) ∧
        (∀ y x ch v, px img y x ch = Some v →
           px a y x ch = Some (0.5 * v + 0.5)%R ∧
           px b y x ch =
             Some (if in_rect y1 (y1 + mask_height self) x1 (x1 + mask_width self) y x
                   then 0.5 else 0.5 * v + 0.5)%R) ∧
        image_shape 32 32 (Z.to_nat (channels self)) g ∧
        all_px (fun v => 0 <= v <= 1)%R g.
Proof.
  intros Hl Hsh Hn Hmh Hmw. pose proof Hsh as [Hlen HF].
  destruct (save_imgs_run self epoch l imgs w Hl ltac:(lia) ltac:(lia) ltac:(lia))
    as (w' & gen & E & Hgen & Hgl & Elog & _).
  set (mk := masked self (rng w) imgs) in *.
  exists w', (sample_grid imgs mk gen). split; [exact E|]. split.
  { rewrite Elog. unfold files_written. rewrite omap_app. reflexivity. }
  assert (Hmkl : length mk = length imgs) by apply masked_length.
  split.
  { unfold sample_grid. repeat constructor;
      rewrite length_fmap, length_take, display_length; lia. }
  split; [reflexivity|].
  intros i img Hi Ei y1 x1.
  pose proof (Forall_lookup_1 _ _ _ _ HF Ei) as Hs.
  pose proof (masked_lookup self (rng w) imgs i img Ei) as Em.
  cbv zeta in Em. rewrite Hlen in Em. fold y1 x1 mk in Em.
  set (m := np.assign_rect img y1 (y1 + mask_height self) x1 (x1 + mask_width self) 0%R)
    in *.
  destruct (call_batch_lookup _ _ _ _ _ _ Hgen Em) as (g & Eg & Ecall).
  assert (Hms : image_shape 32 32 c m) by (apply image_shape_assign_rect, Hs).
  destruct (call_generator self (g_weights (keras w)) m c Hms) as (g' & Ecall' & Hgs & Hgr).
  rewrite Ecall in Ecall'. injection Ecall' as <-.
  pose proof (mod_range (rng w i) (img_rows self - mask_height self) ltac:(lia)).
  pose proof (mod_range (rng w (n + i)%nat) (img_rows self - mask_width self) ltac:(lia)).
  eexists _, _, _. unfold sample_grid. cbn [lookup list_lookup mbind option_bind].
  split; [exact (shown_lookup _ _ _ Hi Ei)|].
  split; [exact (shown_lookup _ _ _ Hi Em)|].
  split; [exact (shown_lookup _ _ _ Hi Eg)|].
  split; [|split].
  - intros y x ch v Hpx. rewrite !px_map3. split; [now rewrite Hpx|].
    unfold m. rewrite (px_assign_rect_clipped _ 32 32 c) by (done || fold y1 x1; lia).
    rewrite Hpx. destruct (in_rect _ _ _ _ _ _); simpl; f_equal; lra.
  - now apply image_shape_map3.
  - unfold all_px in *.
    apply Forall_map. eapply Forall_impl; [exact Hgr|]. simpl. intros row Hrow.
    apply Forall_map. eapply Forall_impl; [exact Hrow|]. simpl. intros p Hp.
    apply Forall_map. eapply Forall_impl; [exact Hp|]. simpl. intros v Hv. lra.
Qed.

(** X8 on six white images. *)
Lemma save_imgs_grid_content_witness :
  ∃ w' axs,
    save_imgs attributes 0 0%nat
      (world_with (fun _ => 0) (constant_batch 6 32 32 3 1%R)) = Ok tt w' ∧
    files_written (log w') = [(grid_path 0, Figure axs)].
Proof.
  destruct (save_imgs_grid_content (H := idle_backend) attributes 0
              (world_with (fun _ => 0) (constant_batch 6 32 32 3 1%R)) 0%nat
              (constant_batch 6 32 32 3 1%R) 6 3)
    as (w' & axs & E & Hf & _).
  - reflexivity.
  - apply constant_batch_shape.
  - lia.
  - simpl. lia.
  - simpl. lia.
  - exists w', axs. split; [exact E|exact Hf].
Defined.







































Lemma length_append (s t : string) :
  String.length (s +:+ t) = (String.length s + String.length t)%nat.
Proof. induction s as [|a s IH]; simpl; [done|]. now rewrite IH. Qed.

Lemma append_inv_tail (t s1 s2 : string) : s1 +:+ t = s2 +:+ t → s1 = s2.
Proof.
  revert s2. induction s1 as [|a s1 IH]; intros [|b s2] E; simpl in E.
  - done.
  - apply (f_equal String.length) in E. rewrite !length_append in E. simpl in E. lia.
  - apply (f_equal String.length) in E. rewrite !length_append in E. simpl in E. lia.
  - injection E as -> E. f_equal. now apply IH.
Qed.

(** X18. The file names of [save_imgs] and [save_model] never clash:
    the grids of two different epochs have different paths, so no grid
    replaces another, and no grid path is one of the four checkpoint
    paths. *)
Theorem grid_paths_distinct (e1 e2 : Z) :
  (grid_path e1 = grid_path e2 → e1 = e2) ∧
  grid_path e1 ∉ checkpoint_paths.
Proof.
  split.
  - unfold grid_path. intros E.
    apply (inj (String.append "ccgan/images/cifar_")) in E.
    apply append_inv_tail in E. now apply (inj pretty) in E.
  - unfold grid_path, checkpoint_paths.
    cbn [String.append]. intros Hin.
    repeat (apply elem_of_cons in Hin as [Hin|Hin]; [discriminate Hin|]).
    by apply elem_of_nil in Hin.
Qed.

Lemma one_hot_row nc l :
  0 <= l < nc →
  ∀ j, 0 <= j < nc →
    nth (Z.to_nat j) (map (fun c => if c =? l then 1%R else 0%R) (npx.range nc)) 0%R
    = if j =? l then 1%R else 0%R.
Proof.
  intros Hl j Hj. unfold npx.range. rewrite map_map.
  erewrite nth_lookup_Some; [reflexivity|].
  rewrite list_lookup_fmap, lookup_seq_lt by lia. simpl. now rewrite Z2Nat.id by lia.
Qed.

(** X19. The class targets of the discriminator, for [num_classes >= 2]:
    the labels 0 and 1 of the training set and the label [num_classes]
    of the reconstructions all fit in [num_classes + 1] one-hot columns;
    a real sample's row has its 1 in column 0 or 1 and a 0 in the last
    column; every fake row has its 1 in the last column: no real target
    equals the fake target. *)
Theorem class_targets_disjoint
    (self : CCGAN) (labels : list (list Z)) (half_batch : Z) (w : World) :
  2 <= num_classes self →
  0 <= half_batch →
  Forall (fun row => row = [0] ∨ row = [1]) labels →
  ∃ real fake,
    npx.to_categorical labels (num_classes self + 1) w = Ok real w ∧
    (f <- npx.full half_batch (num_classes self) ;;
     npx.to_categorical f (num_classes self + 1)) w = Ok fake w ∧
    length real = length labels ∧
    Z.of_nat (length fake) = half_batch ∧
    Forall (fun row => Z.of_nat (length row) = num_classes self + 1 ∧
                       nth (Z.to_nat (num_classes self)) row 0%R = 0%R ∧
                       (nth 0 row 0%R = 1%R ∨ nth 1 row 0%R = 1%R)) real ∧
    Forall (fun row => Z.of_nat (length row) = num_classes self + 1 ∧
                       nth (Z.to_nat (num_classes self)) row 0%R = 1%R ∧
                       nth 0 row 0%R = 0%R ∧ nth 1 row 0%R = 0%R) fake.
Proof.
  intros Hnc Hhb Hlab.
  set (nc := num_classes self) in *.
  assert (Hc : Forall (fun l => l = 0 ∨ l = 1) (concat labels)).
  { induction Hlab as [|row ls [-> | ->] _ IH]; simpl; [constructor|..]; constructor; auto. }
  assert (Hr : Forall (fun l => 0 <= l < nc + 1) (concat labels))
    by (eapply Forall_impl; [exact Hc|]; simpl; intros l [-> | ->]; lia).
  assert (Hlen : length (concat labels) = length labels).
  { clear -Hlab. induction Hlab as [|row ls [-> | ->] _ IH]; simpl; [done|..]; now rewrite IH. }
  assert (Hrow : ∀ l, 0 <= l < nc + 1 →
            Z.of_nat (length (map (fun c => if c =? l then 1%R else 0%R)
                                  (npx.range (nc + 1)))) = nc + 1).
  { intros l _. unfold npx.range. rewrite !length_map, length_seq. lia. }
  exists (one_hot (nc + 1) (concat labels)),
         (one_hot (nc + 1) (concat (replicate (Z.to_nat half_batch) [nc]))).
  split; [now apply to_categorical_run|]. split.
  { rewrite (bind_Ok _ _ _ _ _ (full_run half_batch nc w Hhb)).
    apply to_categorical_run, concat_Forall, Forall_replicate.
    constructor; [lia|constructor]. }
  split; [unfold one_hot; now rewrite length_map|].
  split.
  { unfold one_hot. rewrite length_map.
    rewrite concat_singletons by (apply Forall_replicate; reflexivity).
    rewrite length_replicate. lia. }
  split.
  - unfold one_hot. apply Forall_map. eapply Forall_impl; [exact Hc|]. simpl.
    intros l Hl. split; [apply Hrow; destruct Hl as [-> | ->]; lia|].
    pose proof (one_hot_row (nc + 1) l ltac:(destruct Hl as [-> | ->]; lia)) as Hn.
    split.
    + rewrite (Hn nc) by lia. destruct (Z.eqb_spec nc l); [|reflexivity].
      destruct Hl as [-> | ->]; lia.
    + destruct Hl as [-> | ->].
      * left. exact (Hn 0 ltac:(lia)).
      * right. exact (Hn 1 ltac:(lia)).
  - unfold one_hot. apply Forall_map, Forall_forall. intros l Hl.
    assert (l = nc) as ->.
    { clear -Hl. induction (Z.to_nat half_batch) as [|k IH]; simpl in Hl.
      - by apply elem_of_nil in Hl.
      - apply elem_of_cons in Hl as [->|Hl]; auto. }
    split; [apply Hrow; lia|].
    pose proof (one_hot_row (nc + 1) nc ltac:(lia)) as Hn.
    split; [rewrite (Hn nc) by lia; now rewrite Z.eqb_refl|].
    split.
    + pose proof (Hn 0 ltac:(lia)) as H0. change (Z.to_nat 0) with 0%nat in H0.
      rewrite H0. destruct (Z.eqb_spec 0 nc); [lia|reflexivity].
    + pose proof (Hn 1 ltac:(lia)) as H1. change (Z.to_nat 1) with 1%nat in H1.
      rewrite H1. destruct (Z.eqb_spec 1 nc); [lia|reflexivity].
Qed.

(** X19 on a cat and a dog, with the constructor's two classes. *)
Lemma class_targets_disjoint_witness :
  npx.to_categorical [[0]; [1]] 3 (world0 (fun _ => 0))
    = Ok [[1; 0; 0]; [0; 1; 0]]%R (world0 (fun _ => 0)) ∧
  ∃ real fake,
    npx.to_categorical [[0]; [1]] (num_classes attributes + 1) (world0 (fun _ => 0))
      = Ok real (world0 (fun _ => 0)) ∧
    (f <- npx.full 1 (num_classes attributes) ;;
     npx.to_categorical f (num_classes attributes + 1)) (world0 (fun _ => 0))
      = Ok fake (world0 (fun _ => 0)).
Proof.
  split; [reflexivity|].
  destruct (class_targets_disjoint attributes [[0]; [1]] 1 (world0 (fun _ => 0)))
    as (real & fake & E1 & E2 & _).
  - simpl. lia.
  - lia.
  - constructor; [left; reflexivity|]. constructor; [right; reflexivity|constructor].
  - exists real, fake. split; [exact E1|exact E2].
Defined.





